(** * Event-driven chat server (event-driven-architecture/app.go)

    A shallow embedding of the event bus, the chat server's handlers, the
    accept loop and the per-connection reader loop, followed by the
    properties the design document states about them.

    Conventions of the embedding:
    - a Go map is a [gmap]; reading a missing key gives the zero value, which
      is what the total lookup [!!!] does for slices (the empty list);
    - a [net.Conn] is an opaque handle compared by identity: a number;
    - [interface{}] is the tagged type [any];
    - a Go [string] holding arbitrary bytes is a Rocq [string]; [[]byte(s)]
      and [string(b)] are [list_byte_of_string] and [string_of_list_byte];
    - everything the program does to the outside world (and every handler
      call, as ghost information) is appended to a trace of observations;
      what the outside world answers is read from an environment [Env] that
      may depend on the whole history;
    - a run-time panic, an unbounded loop that is still running and the
      exhaustion of the model's call-depth budget are explicit outcomes. *)

From Stdlib Require Import Strings.String Strings.Ascii Init.Byte.
From stdpp Require Import base option list gmap strings fin_maps.

(** ** Values and outcomes *)

Abbreviation Conn := nat (only parsing).
Abbreviation error := string (only parsing).

(** The dynamic payload of an event.  [VNil] is the nil interface; [VInt]
    stands for a value of any dynamic type that is neither a string nor a
    [net.Conn] implementation. *)
Inductive any : Type :=
| VConn (c : Conn)
| VString (s : string)
| VInt (z : Z)
| VNil.

(** [type Event struct { Type string; Data interface{} }] *)
Record Event : Type := { Type_ : string; Data : any }.

Inductive Outcome (R : Type) : Type :=
| Returned (r : R)            (* the call ran to completion and returned [r] *)
| Panicked (reason : string)  (* unrecovered run-time panic *)
| Looping                     (* still inside a [for {}] loop when the iteration budget ended *)
| OutOfFuel.                  (* the model's call-depth budget ended *)
Arguments Returned {R} r.
Arguments Panicked {R} reason.
Arguments Looping {R}.
Arguments OutOfFuel {R}.

#[global] Instance any_eq_dec : EqDecision any.
Proof. solve_decision. Defined.
#[global] Instance Event_eq_dec : EqDecision Event.
Proof. solve_decision. Defined.

Definition nl : string := String (ascii_of_nat 10) EmptyString.

(** ** The event bus *)

Module EventBus.
Section bus.
(** [H] is the type of handler values; the state handlers act on is the
    parameter [W] of the operations below. *)
Context {H : Type}.

(** [type EventBus struct { handlers map[string][]EventHandler }] *)
Record t : Type := { handlers : gmap string (list H) }.

Definition NewEventBus : t := {| handlers := ∅ |}.

Definition Register (eb : t) (eventType : string) (handler : H) : t :=
  let hs := handlers eb !!! eventType in
  let hs := hs ++ [handler] in
  {| handlers := <[eventType := hs]> (handlers eb) |}.

(** [for _, handler := range handlers { handler(event) }]: the slice was
    read before the loop, a panic unwinds through the loop. *)
Fixpoint range_handlers {W : Type} (hs : list H) (body : H → W → Outcome unit * W)
    (w : W) : Outcome unit * W :=
  match hs with
  | [] => (Returned tt, w)
  | h :: hs' =>
      match body h w with
      | (Returned _, w') => range_handlers hs' body w'
      | stop => stop
      end
  end.

(** [call h event w] is what the call [h(event)] does from state [w]. *)
Definition Dispatch {W : Type} (call : H → Event → W → Outcome unit * W)
    (eb : t) (eventType : string) (data : any) (w : W) : Outcome unit * W :=
  let event := {| Type_ := eventType; Data := data |} in
  let hs := handlers eb !!! eventType in
  range_handlers hs (λ handler, call handler event) w.

(** Registering a sequence of handlers for one event type, in order. *)
Definition RegisterAll (eb : t) (eventType : string) (hs : list H) : t :=
  foldl (λ eb h, Register eb eventType h) eb hs.

(** Ghost instrumentation for statements about invocations: the call
    [h(event)] is recorded, in the order it happens, next to the state. *)
Definition traced {W : Type} (call : H → Event → W → Outcome unit * W)
    (h : H) (event : Event) (wl : W * list (H * Event))
    : Outcome unit * (W * list (H * Event)) :=
  let '(o, w') := call h event wl.1 in (o, (w', wl.2 ++ [(h, event)])).

(** The state after the handlers [hs] have run one after the other. *)
Definition after_all {W : Type} (call : H → Event → W → Outcome unit * W)
    (event : Event) (hs : list H) (w : W) : W :=
  foldl (λ w h, (call h event w).2) w hs.

End bus.
Arguments t : clear implicits.
End EventBus.

Import EventBus.

(** ** The chat server *)

(** The handler values the program ever registers: the three method values
    [cs.onNewConnection], [cs.onDisconnected], [cs.onMessageReceived] of the
    one server object. *)
Inductive Method : Type := onNewConnection | onDisconnected | onMessageReceived.

#[global] Instance Method_eq_dec : EqDecision Method.
Proof. solve_decision. Defined.

(** Observations, oldest first.  [ObsRead c len data err] is the call
    [c.Read(buf)] with [len(buf) = len].  [ObsCall] is ghost: it records
    that a handler was entered, and with which event. *)
Inductive Obs : Type :=
| ObsListen (port : string) (err : option error)
| ObsAccept (r : Conn + error)
| ObsRead (c : Conn) (len : nat) (data : list byte) (err : option error)
| ObsWrite (c : Conn) (b : list byte) (err : option error)
| ObsPrintf (out : string)
| ObsCall (h : Method) (event : Event).

(** What the outside world answers, given the history so far. *)
Record Env : Type := {
  (** [err] of [net.Listen("tcp", port)] *)
  net_Listen : string → list Obs → option error;
  (** [(conn, err)] of [listener.Accept()] *)
  listener_Accept : list Obs → Conn + error;
  (** [conn.Read(buf)] with [len(buf)] given: the bytes stored at the front
      of [buf] (their number is the [n] returned) and [err] *)
  conn_Read : Conn → nat → list Obs → list byte * option error;
  (** [err] of [conn.Write(b)] *)
  conn_Write : Conn → list byte → list Obs → option error;
  (** [conn.RemoteAddr().String()] *)
  conn_RemoteAddr : Conn → string;
  (** the order in which [for conn := range m] produces the keys of [m];
      Go leaves it unspecified *)
  range_keys : gmap Conn bool → list Obs → list Conn;
}.

(** [range] produces every key once. *)
Definition range_ok (env : Env) : Prop :=
  ∀ m tr, range_keys env m tr ≡ₚ (map_to_list m).*1.

(** [Read] stores at most [len(buf)] bytes. *)
Definition read_ok (env : Env) : Prop :=
  ∀ c n tr, length (conn_Read env c n tr).1 ≤ n.

(** [type ChatServer struct { eventBus *EventBus; clients map[net.Conn]bool }] *)
Record ChatServer : Type := {
  eventBus : EventBus.t Method;
  clients : gmap Conn bool;
}.

Definition NewChatServer : ChatServer :=
  {| eventBus := NewEventBus; clients := ∅ |}.

(** The server object together with the history. *)
Record World : Type := { cs : ChatServer; trace : list Obs }.

Definition emit (o : Obs) (w : World) : World :=
  {| cs := cs w; trace := trace w ++ [o] |}.

Definition set_clients (m : gmap Conn bool) (w : World) : World :=
  {| cs := {| eventBus := eventBus (cs w); clients := m |}; trace := trace w |}.

Definition set_eventBus (eb : EventBus.t Method) (w : World) : World :=
  {| cs := {| eventBus := eb; clients := clients (cs w) |}; trace := trace w |}.

(** [for conn := range cs.clients { body }] over the keys in the order
    [keys] chosen at the start of the loop; a key deleted before the loop
    reaches it is not produced.  (Go may or may not produce a key inserted
    during the loop; here it is not produced.  On the bus as [Start] wires
    it the body never inserts.) *)
Fixpoint range_clients (keys : list Conn) (body : Conn → World → Outcome unit * World)
    (w : World) : Outcome unit * World :=
  match keys with
  | [] => (Returned tt, w)
  | conn :: keys' =>
      match clients (cs w) !! conn with
      | None => range_clients keys' body w
      | Some _ =>
          match body conn w with
          | (Returned _, w') => range_clients keys' body w'
          | stop => stop
          end
      end
  end.

Section server.
Variable env : Env.

(** [invoke fuel h event w]: the call [h(event)], with [fuel] bounding the
    depth of nested handler calls. *)
Fixpoint invoke (fuel : nat) (h : Method) (event : Event) (w : World)
    : Outcome unit * World :=
  match fuel with
  | O => (OutOfFuel, w)
  | S fuel' =>
      let w := emit (ObsCall h event) w in
      match h with
      | onNewConnection =>
          match Data event with
          | VConn conn =>
              let w := set_clients (<[conn := true]> (clients (cs w))) w in
              let w := emit (ObsPrintf ("New connection from " +:+ conn_RemoteAddr env conn +:+ nl)) w in
              (Returned tt, w)
          | _ => (Panicked "interface conversion: interface {} is not net.Conn", w)
          end
      | onDisconnected =>
          match Data event with
          | VConn conn =>
              let w := set_clients (delete conn (clients (cs w))) w in
              let w := emit (ObsPrintf ("Disconnected from " +:+ conn_RemoteAddr env conn +:+ nl)) w in
              (Returned tt, w)
          | _ => (Panicked "interface conversion: interface {} is not net.Conn", w)
          end
      | onMessageReceived =>
          match Data event with
          | VString msg =>
              range_clients (range_keys env (clients (cs w)) (trace w))
                (λ conn w,
                   let b := list_byte_of_string msg in
                   let err := conn_Write env conn b (trace w) in
                   let w := emit (ObsWrite conn b err) w in
                   match err with
                   | Some _ =>
                       Dispatch (invoke fuel') (eventBus (cs w)) "disconnected" (VConn conn) w
                   | None => (Returned tt, w)
                   end)
                w
          | _ => (Panicked "interface conversion: interface {} is not string", w)
          end
      end
  end.

(** [cs.eventBus.Dispatch(eventType, data)] on the server's bus. *)
Definition eventBus_Dispatch (fuel : nat) (eventType : string) (data : any)
    (w : World) : Outcome unit * World :=
  Dispatch (invoke fuel) (eventBus (cs w)) eventType data w.

(** The accept loop of [Start], [iters] iterations of it. *)
Fixpoint accept_loop (fuel iters : nat) (w : World) : Outcome (option error) * World :=
  match iters with
  | O => (Looping, w)
  | S iters' =>
      let r := listener_Accept env (trace w) in
      let w := emit (ObsAccept r) w in
      match r with
      | inr err =>
          let w := emit (ObsPrintf ("Error accepting connection: " +:+ err +:+ nl)) w in
          accept_loop fuel iters' w
      | inl conn =>
          match eventBus_Dispatch fuel "new-connection" (VConn conn) w with
          | (Returned _, w') => accept_loop fuel iters' w'
          | (Panicked reason, w') => (Panicked reason, w')
          | (Looping, w') => (Looping, w')
          | (OutOfFuel, w') => (OutOfFuel, w')
          end
      end
  end.

(** [func (cs *ChatServer) Start(port string) error].  The deferred
    [listener.Close()] would run when [Start] returns after a successful
    [Listen]; the accept loop has no exit, so it never does. *)
Definition Start (fuel iters : nat) (port : string) (w : World)
    : Outcome (option error) * World :=
  let err := net_Listen env port (trace w) in
  let w := emit (ObsListen port err) w in
  match err with
  | Some e => (Returned (Some e), w)
  | None =>
      let w := emit (ObsPrintf ("Listening on port " +:+ port +:+ "..." +:+ nl)) w in
      let w := set_eventBus (Register (eventBus (cs w)) "new-connection" onNewConnection) w in
      let w := set_eventBus (Register (eventBus (cs w)) "disconnected" onDisconnected) w in
      let w := set_eventBus (Register (eventBus (cs w)) "message-received" onMessageReceived) w in
      accept_loop fuel iters w
  end.

(** [func main()] *)
Definition main (fuel iters : nat) : Outcome unit * World :=
  let w := {| cs := NewChatServer; trace := [] |} in
  match Start fuel iters ":8000" w with
  | (Returned (Some e), w') =>
      (Returned tt, emit (ObsPrintf ("Error starting server: " +:+ e +:+ nl)) w')
  | (Returned None, w') => (Returned tt, w')
  | (Panicked reason, w') => (Panicked reason, w')
  | (Looping, w') => (Looping, w')
  | (OutOfFuel, w') => (OutOfFuel, w')
  end.

(** *** The per-connection reader *)

(** [*EventBus]: the program allocates one bus, the server's (in
    [NewChatServer]), so a bus pointer can only designate that one. *)
Inductive EventBusRef : Type := server_bus.

(** [type Client struct { conn net.Conn; eventBus *EventBus }] *)
Record Client : Type := { conn : Conn; client_eventBus : EventBusRef }.

Definition NewClient (c : Conn) (eb : EventBusRef) : Client :=
  {| conn := c; client_eventBus := eb |}.

(** [c.eventBus.Dispatch(eventType, data)] *)
Definition Client_Dispatch (fuel : nat) (c : Client) (eventType : string) (data : any)
    (w : World) : Outcome unit * World :=
  match client_eventBus c with
  | server_bus => eventBus_Dispatch fuel eventType data w
  end.

(** [make([]byte, n)] *)
Definition make_bytes (n : nat) : list byte := replicate n x00.

(** The contents of [buf] after a [Read] stored [data] at its front. *)
Definition stored (buf data : list byte) : list byte :=
  take (length buf) (data ++ drop (length data) buf).

(** [buf[:n]]: panics when [n] exceeds the capacity. *)
Definition slice_to (buf : list byte) (n : nat) : option (list byte) :=
  if decide (n ≤ length buf) then Some (take n buf) else None.

(** The [for] loop of [Client.Start], [iters] iterations of it. *)
Fixpoint reader_loop (fuel iters : nat) (c : Client) (buf : list byte) (w : World)
    : Outcome unit * World :=
  match iters with
  | O => (Looping, w)
  | S iters' =>
      let '(data, err) := conn_Read env (conn c) (length buf) (trace w) in
      let n := length data in
      let w := emit (ObsRead (conn c) (length buf) data err) w in
      let buf := stored buf data in
      match err with
      | Some _ => Client_Dispatch fuel c "disconnected" (VConn (conn c)) w
      | None =>
          match slice_to buf n with
          | None => (Panicked "slice bounds out of range", w)
          | Some bs =>
              let msg := string_of_list_byte bs in
              match Client_Dispatch fuel c "message-received" (VString msg) w with
              | (Returned _, w') => reader_loop fuel iters' c buf w'
              | stop => stop
              end
          end
      end
  end.

(** [func (c *Client) Start()] *)
Definition Client_Start (fuel iters : nat) (c : Client) (w : World)
    : Outcome unit * World :=
  match Client_Dispatch fuel c "new-connection" (VConn (conn c)) w with
  | (Returned _, w') =>
      let buf := make_bytes 1024 in
      reader_loop fuel iters c buf w'
  | stop => stop
  end.

End server.

(** ** Reading the trace *)

(** The observations made between two states of one run. *)
Definition new_obs (w w' : World) : list Obs :=
  drop (length (trace w)) (trace w').

(** The [Write] calls: connection, bytes, error. *)
Definition writes (tr : list Obs) : list (Conn * list byte * option error) :=
  omap (λ o, match o with ObsWrite c b err => Some (c, b, err) | _ => None end) tr.

(** The connections a [Write] failed on. *)
Definition failed_writes (tr : list Obs) : list Conn :=
  omap (λ o, match o with ObsWrite c _ (Some _) => Some c | _ => None end) tr.

(** The [Read] calls: connection, bytes, error. *)
Definition reads (tr : list Obs) : list (Conn * list byte * option error) :=
  omap (λ o, match o with ObsRead c _ d err => Some (c, d, err) | _ => None end) tr.

(** The lengths of the buffers the [Read] calls were given. *)
Definition read_sizes (tr : list Obs) : list nat :=
  omap (λ o, match o with ObsRead _ len _ _ => Some len | _ => None end) tr.

(** The data of the [Read] calls that returned no error. *)
Definition successful_reads (tr : list Obs) : list (list byte) :=
  omap (λ o, match o with ObsRead _ _ d None => Some d | _ => None end) tr.

(** The [Read] calls that returned an error. *)
Definition failed_reads (tr : list Obs) : list error :=
  omap (λ o, match o with ObsRead _ _ _ (Some e) => Some e | _ => None end) tr.

(** The events handler [h] was called with. *)
Definition calls (h : Method) (tr : list Obs) : list Event :=
  omap (λ o, match o with
             | ObsCall h' ev => if decide (h' = h) then Some ev else None
             | _ => None
             end) tr.

(** What was printed. *)
Definition printed (tr : list Obs) : list string :=
  omap (λ o, match o with ObsPrintf out => Some out | _ => None end) tr.

(** The observations a handler can make: writes, prints, handler calls. *)
Definition handler_obs (o : Obs) : Prop :=
  match o with
  | ObsWrite _ _ _ | ObsPrintf _ | ObsCall _ _ => True
  | _ => False
  end.

(** The bus as [Start] wires it: each of the three event types has its one
    handler. *)
Definition Wired (w : World) : Prop :=
  handlers (eventBus (cs w)) !!! "new-connection" = [onNewConnection] ∧
  handlers (eventBus (cs w)) !!! "disconnected" = [onDisconnected] ∧
  handlers (eventBus (cs w)) !!! "message-received" = [onMessageReceived].

(** The payload each handler casts to. *)
Definition accepts (h : Method) (data : any) : bool :=
  match h, data with
  | onNewConnection, VConn _ | onDisconnected, VConn _ => true
  | onMessageReceived, VString _ => true
  | _, _ => false
  end.

Definition is_panic {R : Type} (o : Outcome R) : bool :=
  match o with Panicked _ => true | _ => false end.

(** ** Vocabulary of the statements *)

(** The events the program dispatches. *)
Definition connect_event (c : Conn) : Event :=
  {| Type_ := "new-connection"; Data := VConn c |}.

Definition disconnect_event (c : Conn) : Event :=
  {| Type_ := "disconnected"; Data := VConn c |}.

(** The event a successful read of the bytes [d] is turned into. *)
Definition message_event (d : list byte) : Event :=
  {| Type_ := "message-received"; Data := VString (string_of_list_byte d) |}.

(** What a broadcast of the bytes [b] may add to the history. *)
Definition relay_obs (b : list byte) (o : Obs) : Prop :=
  match o with
  | ObsWrite _ b' _ => b' = b
  | ObsPrintf _ => True
  | ObsCall h _ => h = onDisconnected
  | _ => False
  end.

(** [steps w w']: [w'] extends the history of [w] by observations a handler
    can make, and has the same handler table. *)
Definition steps (w w' : World) : Prop :=
  ∃ seg, trace w' = trace w ++ seg ∧ Forall handler_obs seg ∧
         eventBus (cs w') = eventBus (cs w).

(** The documented payload of the three event types: a connection handle
    for [new-connection] and [disconnected], a string for
    [message-received]. *)
Definition documented_payload (ty : string) (data : any) : bool :=
  match data with
  | VConn _ => bool_decide (ty = "new-connection" ∨ ty = "disconnected")
  | VString _ => bool_decide (ty = "message-received")
  | _ => false
  end.

(** The server object and history [main] starts from. *)
Definition init_world : World := {| cs := NewChatServer; trace := [] |}.

(** The state in which [Start] enters its accept loop. *)
Definition listening (port : string) (w : World) : World :=
  let w := emit (ObsListen port None) w in
  let w := emit (ObsPrintf ("Listening on port " +:+ port +:+ "..." +:+ nl)) w in
  let w := set_eventBus (Register (eventBus (cs w)) "new-connection" onNewConnection) w in
  let w := set_eventBus (Register (eventBus (cs w)) "disconnected" onDisconnected) w in
  set_eventBus (Register (eventBus (cs w)) "message-received" onMessageReceived) w.

Section vocabulary.
Variable env : Env.

(** The state after [onNewConnection] ran for [c]. *)
Definition connected (c : Conn) (w : World) : World :=
  let w := emit (ObsCall onNewConnection (connect_event c)) w in
  let w := set_clients (<[c := true]> (clients (cs w))) w in
  emit (ObsPrintf ("New connection from " +:+ conn_RemoteAddr env c +:+ nl)) w.

(** The state after [onDisconnected] ran for [c]. *)
Definition disconnected (c : Conn) (w : World) : World :=
  let w := emit (ObsCall onDisconnected (disconnect_event c)) w in
  let w := set_clients (delete c (clients (cs w))) w in
  emit (ObsPrintf ("Disconnected from " +:+ conn_RemoteAddr env c +:+ nl)) w.

(** One iteration of the broadcast loop for member [c]. *)
Definition send (b : list byte) (c : Conn) (w : World) : World :=
  let err := conn_Write env c b (trace w) in
  let w := emit (ObsWrite c b err) w in
  match err with Some _ => disconnected c w | None => w end.

(** The broadcast loop over [keys]. *)
Fixpoint broadcast (b : list byte) (keys : list Conn) (w : World) : World :=
  match keys with
  | [] => w
  | c :: keys' =>
      match clients (cs w) !! c with
      | None => broadcast b keys' w
      | Some _ => broadcast b keys' (send b c w)
      end
  end.

(** The state after [onMessageReceived] ran for [msg]. *)
Definition relayed (msg : string) (w : World) : World :=
  let w := emit (ObsCall onMessageReceived {| Type_ := "message-received"; Data := VString msg |}) w in
  broadcast (list_byte_of_string msg) (range_keys env (clients (cs w)) (trace w)) w.

(** The observations of one iteration of the broadcast loop. *)
Definition send_obs (b : list byte) (c : Conn) (tr : list Obs) : list Obs :=
  match conn_Write env c b tr with
  | Some e =>
      [ObsWrite c b (Some e); ObsCall onDisconnected (disconnect_event c);
       ObsPrintf ("Disconnected from " +:+ conn_RemoteAddr env c +:+ nl)]
  | None => [ObsWrite c b None]
  end.

End vocabulary.

(** The reading of C6 as it is worded: for a connection that is not in the
    registry, two [disconnected] dispatches in a row both return normally,
    the second leaves the registry unchanged, and nothing the first one
    printed is printed again by the second. *)
Definition second_disconnect_repeats_nothing (env : Env) (fuel : nat) (c : Conn)
    (w : World) : Prop :=
  let r1 := eventBus_Dispatch env fuel "disconnected" (VConn c) w in
  let r2 := eventBus_Dispatch env fuel "disconnected" (VConn c) r1.2 in
  r1.1 = Returned tt ∧ r2.1 = Returned tt ∧
  clients (cs r2.2) = clients (cs r1.2) ∧
  ∀ out, out ∈ printed (new_obs w r1.2) → out ∉ printed (new_obs r1.2 r2.2).

(** The results of the [Accept] calls. *)
Definition accept_results (tr : list Obs) : list (Conn + error) :=
  omap (λ o, match o with ObsAccept r => Some r | _ => None end) tr.

(** The connections the [Accept] calls returned. *)
Definition accepted (tr : list Obs) : list Conn :=
  omap (λ o, match o with ObsAccept (inl c) => Some c | _ => None end) tr.

(** What the server prints for one [Accept]: the handler's notice for a
    connection, the loop's own for an error. *)
Definition accept_notice (env : Env) (r : Conn + error) : string :=
  match r with
  | inl c => "New connection from " +:+ conn_RemoteAddr env c +:+ nl
  | inr e => "Error accepting connection: " +:+ e +:+ nl
  end.

(** The registry is used as a set: every entry maps to [true]. *)
Definition all_true (m : gmap Conn bool) : Prop :=
  ∀ c v, m !! c = Some v → v = true.

(** The call came to an end: it returned or it panicked. *)
Definition settled {R : Type} (o : Outcome R) : Prop :=
  (∃ r, o = Returned r) ∨ is_panic o = true.

(** [keeps_all_true w w']: if the registry of [w] is a set, so is that of
    [w']. *)
Definition keeps_all_true (w w' : World) : Prop :=
  all_true (clients (cs w)) → all_true (clients (cs w')).

(** [bus_sim eb eb' w w']: two runs of the server that differ in the
    handler table only, [eb] in the one and [eb'] in the other. *)
Definition bus_sim (eb eb' : EventBus.t Method) (w w' : World) : Prop :=
  clients (cs w) = clients (cs w') ∧ trace w = trace w' ∧
  eventBus (cs w) = eb ∧ eventBus (cs w') = eb'.

(** ** Sample data *)

(** An environment in which binding succeeds, connections 1, 2, 3 arrive
    and then accepting fails, every write to connection 2 fails, and every
    connection delivers "hello" once and is then closed by its peer. *)
Definition sample_env : Env := {|
  net_Listen := λ _ _, None;
  listener_Accept := λ tr,
    match length (omap (λ o, match o with ObsAccept r => Some r | _ => None end) tr) with
    | 0 => inl 1 | 1 => inl 2 | 2 => inl 3 | _ => inr "too many open files"
    end;
  conn_Read := λ c n tr,
    match reads tr with
    | [] => (take n (list_byte_of_string "hello"), None)
    | _ => ([], Some "EOF")
    end;
  conn_Write := λ c b tr, if decide (c = 2) then Some "broken pipe" else None;
  conn_RemoteAddr := λ c, if decide (c = 2) then "10.0.0.2:4002" else "10.0.0.1:4001";
  range_keys := λ m _, (map_to_list m).*1;
|}.

(** The same, except that binding the port fails. *)
Definition busy_env : Env := {|
  net_Listen := λ _ _, Some "address already in use";
  listener_Accept := listener_Accept sample_env;
  conn_Read := conn_Read sample_env;
  conn_Write := conn_Write sample_env;
  conn_RemoteAddr := conn_RemoteAddr sample_env;
  range_keys := range_keys sample_env;
|}.

(** The server after [Start] wired the bus and accepted connections 1, 2, 3. *)
Definition sample_world : World := (Start sample_env 2 3 ":8000" init_world).2.

(** A server with a wired bus and nobody connected. *)
Definition idle_world : World := (Start sample_env 2 0 ":8000" init_world).2.

(** A handler semantics for the generic bus: handler [0] panics, any other
    handler [h] appends [h] to the state. *)
Definition flaky_call (h : nat) (_ : Event) (w : list nat) : Outcome unit * list nat :=
  if decide (h = 0) then (Panicked "boom", w) else (Returned tt, w ++ [h]).

(** ** Facts about the bus *)

Section bus_facts.
Context {H : Type}.
Implicit Types (eb : EventBus.t H) (ty : string) (h : H).

Lemma Register_lookup_total eb ty h :
  handlers (Register eb ty h) !!! ty = handlers eb !!! ty ++ [h].
Proof. unfold Register; simpl. by rewrite lookup_total_insert_eq. Qed.

Lemma Register_lookup_ne eb ty ty' h :
  ty' ≠ ty → handlers (Register eb ty h) !! ty' = handlers eb !! ty'.
Proof. intros Hne. unfold Register; simpl. by rewrite lookup_insert_ne. Qed.

Lemma Register_lookup_total_ne eb ty ty' h :
  ty' ≠ ty → handlers (Register eb ty h) !!! ty' = handlers eb !!! ty'.
Proof. intros Hne. unfold Register; simpl. by rewrite lookup_total_insert_ne. Qed.

Lemma RegisterAll_lookup_total eb ty (hs : list H) :
  handlers (RegisterAll eb ty hs) !!! ty = handlers eb !!! ty ++ hs.
Proof.
  unfold RegisterAll. revert eb.
  induction hs as [|h hs IH]; intros eb; simpl.
  - by rewrite app_nil_r.
  - rewrite IH, Register_lookup_total. by rewrite <- app_assoc.
Qed.

Lemma range_handlers_traced {W : Type}
    (call : H → Event → W → Outcome unit * W) event (hs : list H) w log :
  (∀ h w', h ∈ hs → (call h event w').1 = Returned tt) →
  range_handlers hs (λ h, traced call h event) (w, log)
  = (Returned tt, (after_all call event hs w, log ++ map (λ h, (h, event)) hs)).
Proof.
  revert w log. induction hs as [|h hs IH]; intros w log Hret; simpl.
  - by rewrite app_nil_r.
  - pose proof (Hret h w ltac:(left)) as Hh.
    unfold traced at 1, after_all; simpl.
    destruct (call h event w) as [o w1]; simpl in *; subst o.
    rewrite IH by (intros; apply Hret; by right).
    by rewrite <- app_assoc.
Qed.

(** A reflexive and transitive relation that every handler call respects
    is respected by the whole loop. *)
Lemma range_handlers_rel {W : Type} (R : relation W)
    `{!Reflexive R, !Transitive R} (hs : list H) body (w : W) :
  (∀ h w', R w' (body h w').2) → R w (range_handlers hs body w).2.
Proof.
  intros Hbody. revert w. induction hs as [|h hs IH]; intros w; simpl; [done|].
  pose proof (Hbody h w) as Hh.
  destruct (body h w) as [[] w1]; simpl in *; try done.
  by etrans; [exact Hh|].
Qed.

Lemma range_handlers_nil {W : Type} (body : H → W → Outcome unit * W) w :
  range_handlers [] body w = (Returned tt, w).
Proof. done. Qed.

Lemma range_handlers_one {W : Type} (body : H → W → Outcome unit * W) h w :
  (body h w).1 = Returned tt →
  range_handlers [h] body w = (Returned tt, (body h w).2).
Proof. simpl. destruct (body h w) as [[] w1]; simpl; done. Qed.

End bus_facts.

Lemma range_clients_rel (R : relation World) `{!Reflexive R, !Transitive R}
    (keys : list Conn) body (w : World) :
  (∀ c w', R w' (body c w').2) → R w (range_clients keys body w).2.
Proof.
  intros Hbody. revert w. induction keys as [|c keys IH]; intros w; simpl; [done|].
  destruct (clients (cs w) !! c); [|done].
  pose proof (Hbody c w) as Hc.
  destruct (body c w) as [[] w1]; simpl in *; try done.
  by etrans; [exact Hc|].
Qed.

(** ** Facts about the handlers *)

#[local] Instance steps_refl : Reflexive steps.
Proof. intros w. exists []. by rewrite app_nil_r. Qed.

#[local] Instance steps_trans : Transitive steps.
Proof.
  intros w1 w2 w3 (s1 & E1 & F1 & B1) (s2 & E2 & F2 & B2).
  exists (s1 ++ s2). rewrite E2, E1, <- app_assoc, B2, B1.
  split_and!; [done| by apply Forall_app |done].
Qed.

Lemma steps_emit o w : handler_obs o → steps w (emit o w).
Proof. intros Ho. exists [o]. simpl. split_and!; [done| by constructor |done]. Qed.

Lemma steps_set_clients m w : steps w (set_clients m w).
Proof. exists []. simpl. by rewrite app_nil_r. Qed.

Lemma new_obs_app w w' seg : trace w' = trace w ++ seg → new_obs w w' = seg.
Proof. unfold new_obs. intros ->. by rewrite drop_app_length. Qed.

Section handler_facts.
Variable env : Env.

Lemma invoke_S fuel h event w :
  invoke env (S fuel) h event w =
  let w := emit (ObsCall h event) w in
  match h with
  | onNewConnection =>
      match Data event with
      | VConn conn =>
          let w := set_clients (<[conn := true]> (clients (cs w))) w in
          let w := emit (ObsPrintf ("New connection from " +:+ conn_RemoteAddr env conn +:+ nl)) w in
          (Returned tt, w)
      | _ => (Panicked "interface conversion: interface {} is not net.Conn", w)
      end
  | onDisconnected =>
      match Data event with
      | VConn conn =>
          let w := set_clients (delete conn (clients (cs w))) w in
          let w := emit (ObsPrintf ("Disconnected from " +:+ conn_RemoteAddr env conn +:+ nl)) w in
          (Returned tt, w)
      | _ => (Panicked "interface conversion: interface {} is not net.Conn", w)
      end
  | onMessageReceived =>
      match Data event with
      | VString msg =>
          range_clients (range_keys env (clients (cs w)) (trace w))
            (λ conn w,
               let b := list_byte_of_string msg in
               let err := conn_Write env conn b (trace w) in
               let w := emit (ObsWrite conn b err) w in
               match err with
               | Some _ =>
                   Dispatch (invoke env fuel) (eventBus (cs w)) "disconnected" (VConn conn) w
               | None => (Returned tt, w)
               end)
            w
      | _ => (Panicked "interface conversion: interface {} is not string", w)
      end
  end.
Proof. reflexivity. Qed.

(** Whatever is registered, a handler call only writes, prints and calls
    handlers, and leaves the handler table alone. *)
Lemma invoke_steps fuel h event w : steps w (invoke env fuel h event w).2.
Proof.
  revert h event w. induction fuel as [|fuel IH]; intros h event w; [done|].
  rewrite invoke_S. cbv zeta.
  assert (steps w (emit (ObsCall h event) w)) as H0 by (apply steps_emit; exact I).
  etrans; [exact H0|]. clear H0.
  set (w0 := emit (ObsCall h event) w). clearbody w0.
  destruct h, (Data event); simpl; try reflexivity.
  - etrans; [apply steps_set_clients|]. by apply steps_emit.
  - etrans; [apply steps_set_clients|]. by apply steps_emit.
  - apply (range_clients_rel steps). intros c w'.
    set (b := list_byte_of_string s).
    etrans; [apply (steps_emit (ObsWrite c b (conn_Write env c b (trace w')))); done|].
    destruct (conn_Write env c b (trace w')); simpl; [|reflexivity].
    unfold Dispatch. apply (range_handlers_rel steps). intros h' w''. apply IH.
Qed.

Lemma Dispatch_steps fuel ty data w :
  steps w (eventBus_Dispatch env fuel ty data w).2.
Proof.
  unfold eventBus_Dispatch, Dispatch.
  apply (range_handlers_rel steps). intros h w'. apply invoke_steps.
Qed.

End handler_facts.

(** ** The handlers on the bus as [Start] wires it *)

Section wired_facts.
Variable env : Env.

Lemma Wired_steps w w' : steps w w' → Wired w → Wired w'.
Proof. intros (seg & _ & _ & Hb). unfold Wired. by rewrite Hb. Qed.

Lemma Wired_connected c w : Wired w → Wired (connected env c w).
Proof. done. Qed.

Lemma Wired_disconnected c w : Wired w → Wired (disconnected env c w).
Proof. done. Qed.

Lemma Wired_send b c w : Wired w → Wired (send env b c w).
Proof. unfold send. by destruct (conn_Write env c b (trace w)). Qed.

Lemma Wired_broadcast b keys w : Wired w → Wired (broadcast env b keys w).
Proof.
  revert w. induction keys as [|c keys IH]; intros w Hw; simpl; [done|].
  destruct (clients (cs w) !! c); auto using Wired_send.
Qed.

Lemma Dispatch_new_connection fuel c w :
  Wired w →
  eventBus_Dispatch env (S fuel) "new-connection" (VConn c) w
  = (Returned tt, connected env c w).
Proof. intros (Hn & _ & _). unfold eventBus_Dispatch, Dispatch. by rewrite Hn. Qed.

Lemma Dispatch_disconnected fuel c w :
  Wired w →
  eventBus_Dispatch env (S fuel) "disconnected" (VConn c) w
  = (Returned tt, disconnected env c w).
Proof. intros (_ & Hd & _). unfold eventBus_Dispatch, Dispatch. by rewrite Hd. Qed.

Lemma range_clients_broadcast fuel b keys w :
  Wired w →
  range_clients keys
    (λ conn w,
       let err := conn_Write env conn b (trace w) in
       let w := emit (ObsWrite conn b err) w in
       match err with
       | Some _ =>
           Dispatch (invoke env (S fuel)) (eventBus (cs w)) "disconnected" (VConn conn) w
       | None => (Returned tt, w)
       end) w
  = (Returned tt, broadcast env b keys w).
Proof.
  revert w. induction keys as [|c keys IH]; intros w Hw; [done|].
  cbn [range_clients broadcast].
  destruct (clients (cs w) !! c); [|by apply IH].
  pose proof (Wired_send b c w Hw) as Hs. unfold send in *. cbv zeta in *.
  destruct (conn_Write env c b (trace w)) as [e|].
  - set (w1 := emit (ObsWrite c b (Some e)) w) in *.
    assert (Wired w1) as Hw1 by done.
    pose proof (Dispatch_disconnected fuel c w1 Hw1) as Hd.
    unfold eventBus_Dispatch in Hd. rewrite Hd. by apply IH.
  - by apply IH.
Qed.

Lemma Dispatch_message_received fuel msg w :
  Wired w →
  eventBus_Dispatch env (S (S fuel)) "message-received" (VString msg) w
  = (Returned tt, relayed env msg w).
Proof.
  intros Hw. pose proof Hw as (_ & _ & Hm).
  unfold eventBus_Dispatch, Dispatch. rewrite Hm.
  rewrite range_handlers_one; rewrite invoke_S; cbv zeta; simpl Data; cbv iota;
    rewrite range_clients_broadcast; done.
Qed.

End wired_facts.

(** ** The broadcast loop *)

Lemma writes_app tr1 tr2 : writes (tr1 ++ tr2) = writes tr1 ++ writes tr2.
Proof. apply omap_app. Qed.

Lemma failed_writes_app tr1 tr2 :
  failed_writes (tr1 ++ tr2) = failed_writes tr1 ++ failed_writes tr2.
Proof. apply omap_app. Qed.

Lemma reads_app tr1 tr2 : reads (tr1 ++ tr2) = reads tr1 ++ reads tr2.
Proof. apply omap_app. Qed.

Lemma read_sizes_app tr1 tr2 : read_sizes (tr1 ++ tr2) = read_sizes tr1 ++ read_sizes tr2.
Proof. apply omap_app. Qed.

Lemma successful_reads_app tr1 tr2 :
  successful_reads (tr1 ++ tr2) = successful_reads tr1 ++ successful_reads tr2.
Proof. apply omap_app. Qed.

Lemma failed_reads_app tr1 tr2 :
  failed_reads (tr1 ++ tr2) = failed_reads tr1 ++ failed_reads tr2.
Proof. apply omap_app. Qed.

Lemma calls_app h tr1 tr2 : calls h (tr1 ++ tr2) = calls h tr1 ++ calls h tr2.
Proof. apply omap_app. Qed.

Lemma printed_app tr1 tr2 : printed (tr1 ++ tr2) = printed tr1 ++ printed tr2.
Proof. apply omap_app. Qed.

Lemma relay_obs_no_reads b seg : Forall (relay_obs b) seg → reads seg = [].
Proof.
  induction 1 as [|o seg Ho _ IH]; [done|].
  unfold reads in *; simpl. by destruct o.
Qed.

Lemma relay_obs_no_messages b seg :
  Forall (relay_obs b) seg → calls onMessageReceived seg = [].
Proof.
  induction 1 as [|o seg Ho _ IH]; [done|].
  unfold calls in *; simpl. destruct o; try done.
  simpl in Ho; subst h. by rewrite decide_False.
Qed.

Lemma relay_obs_writes b seg :
  Forall (relay_obs b) seg → Forall (λ x, x.1.2 = b) (writes seg).
Proof.
  induction 1 as [|o seg Ho _ IH]; [by constructor|].
  unfold writes in *; simpl. destruct o; try done. by constructor.
Qed.

Lemma lookup_foldl_delete (m : gmap Conn bool) (l : list Conn) (k : Conn) :
  foldl (λ m c, delete c m) m l !! k = if decide (k ∈ l) then None else m !! k.
Proof.
  revert m. induction l as [|c l IH]; intros m; cbn [foldl].
  - case_decide as Hk; [by apply elem_of_nil in Hk | done].
  - rewrite IH. repeat case_decide; try done.
    + exfalso. match goal with Hn : _ ∉ _ :: _ |- _ => apply Hn end. by right.
    + match goal with Hi : _ ∈ _ :: _ |- _ => apply elem_of_cons in Hi as [->|Hi] end;
        [by rewrite lookup_delete_eq | done].
    + rewrite lookup_delete_ne; [done|]. intros <-.
      match goal with Hn : _ ∉ _ :: _ |- _ => apply Hn end. by left.
Qed.

Section broadcast_facts.
Variable env : Env.

Lemma trace_disconnected c w :
  trace (disconnected env c w)
  = trace w ++ [ObsCall onDisconnected (disconnect_event c);
                ObsPrintf ("Disconnected from " +:+ conn_RemoteAddr env c +:+ nl)].
Proof. unfold disconnected, emit; simpl. by rewrite <- app_assoc. Qed.

Lemma clients_disconnected c w :
  clients (cs (disconnected env c w)) = delete c (clients (cs w)).
Proof. done. Qed.

Lemma trace_send b c w :
  trace (send env b c w) = trace w ++ send_obs env b c (trace w).
Proof.
  unfold send, send_obs. destruct (conn_Write env c b (trace w)); [|done].
  rewrite trace_disconnected. unfold emit; simpl. by rewrite <- app_assoc.
Qed.

Lemma clients_send b c w :
  clients (cs (send env b c w))
  = foldl (λ m c, delete c m) (clients (cs w)) (failed_writes (send_obs env b c (trace w))).
Proof.
  unfold send, send_obs. by destruct (conn_Write env c b (trace w)).
Qed.

Lemma send_obs_relay b c tr : Forall (relay_obs b) (send_obs env b c tr).
Proof. unfold send_obs. destruct (conn_Write env c b tr); repeat constructor. Qed.

Lemma send_obs_writes b c tr : (writes (send_obs env b c tr)).*1.*1 = [c].
Proof. unfold send_obs. by destruct (conn_Write env c b tr). Qed.

Lemma send_obs_failed b c tr :
  failed_writes (send_obs env b c tr) = [] ∨ failed_writes (send_obs env b c tr) = [c].
Proof. unfold send_obs. destruct (conn_Write env c b tr); auto. Qed.

Lemma send_obs_calls b c tr :
  calls onDisconnected (send_obs env b c tr)
  = disconnect_event <$> (failed_writes (send_obs env b c tr)).
Proof. unfold send_obs. by destruct (conn_Write env c b tr). Qed.

(** Whatever the keys, a broadcast adds only its own observations. *)
Lemma broadcast_relay b keys w :
  ∃ seg, trace (broadcast env b keys w) = trace w ++ seg ∧ Forall (relay_obs b) seg.
Proof.
  revert w. induction keys as [|c keys IH]; intros w; simpl.
  - exists []. by rewrite app_nil_r.
  - destruct (clients (cs w) !! c); [|apply IH].
    destruct (IH (send env b c w)) as (seg & Ht & Hf).
    exists (send_obs env b c (trace w) ++ seg).
    rewrite Ht, trace_send, <- app_assoc. split; [done|].
    apply Forall_app; split; [apply send_obs_relay | done].
Qed.

(** Over an enumeration of the members, it writes to each once, in that
    order, and removes exactly those the write failed on. *)
Lemma broadcast_members b keys w :
  NoDup keys → (∀ c, c ∈ keys → is_Some (clients (cs w) !! c)) →
  ∃ seg, trace (broadcast env b keys w) = trace w ++ seg ∧
         (writes seg).*1.*1 = keys ∧
         calls onDisconnected seg = disconnect_event <$> (failed_writes seg) ∧
         clients (cs (broadcast env b keys w))
         = foldl (λ m c, delete c m) (clients (cs w)) (failed_writes seg).
Proof.
  revert w. induction keys as [|c keys IH]; intros w Hnd Hin; simpl.
  - exists []. by rewrite app_nil_r.
  - apply NoDup_cons in Hnd as [Hc Hnd].
    destruct (Hin c ltac:(left)) as [v Hv]. rewrite Hv.
    destruct (IH (send env b c w) Hnd) as (seg & Ht & Hw & Hcl & Hm).
    { intros c' Hc'. rewrite clients_send, lookup_foldl_delete.
      rewrite decide_False; [apply Hin; by right|].
      destruct (send_obs_failed b c (trace w)) as [-> | ->].
      - apply not_elem_of_nil.
      - intros ->%list_elem_of_singleton. done. }
    exists (send_obs env b c (trace w) ++ seg).
    rewrite Ht, trace_send, <- app_assoc.
    rewrite writes_app, calls_app, failed_writes_app.
    rewrite !fmap_app, send_obs_writes, send_obs_calls, Hw, Hcl, Hm, clients_send.
    by rewrite foldl_app.
Qed.

End broadcast_facts.

Lemma sample_env_range_ok : range_ok sample_env.
Proof. intros m tr. reflexivity. Qed.

Lemma sample_env_read_ok : read_ok sample_env.
Proof.
  intros c n tr. simpl. destruct (reads tr); simpl; [|lia].
  rewrite length_take. lia.
Qed.

Lemma sample_world_Wired : Wired sample_world.
Proof. by vm_compute. Qed.

Lemma idle_world_Wired : Wired idle_world.
Proof. by vm_compute. Qed.

(** ** The event bus: registration and dispatch *)

(** C1.  Registering the handlers [hs] for event type [ty], one after the
    other, and dispatching [ty] once calls every handler registered for
    [ty] (those registered before, then [hs]) exactly once, in registration
    order, each with the event wrapping the payload; the state [Dispatch]
    returns is the one the last handler left, so it returns only after all
    of them have.  Handlers are run by the caller itself, one after the
    other: the model has no other thread.  The handlers are assumed to
    return. *)
Theorem Dispatch_calls_in_registration_order {H W : Type}
    (call : H → Event → W → Outcome unit * W) (eb : EventBus.t H)
    (ty : string) (hs : list H) (data : any) (w : W) :
  (∀ h w', h ∈ handlers eb !!! ty ++ hs →
           (call h {| Type_ := ty; Data := data |} w').1 = Returned tt) →
  Dispatch (traced call) (RegisterAll eb ty hs) ty data (w, [])
  = (Returned tt,
     (after_all call {| Type_ := ty; Data := data |} (handlers eb !!! ty ++ hs) w,
      map (λ h, (h, {| Type_ := ty; Data := data |})) (handlers eb !!! ty ++ hs))).
Proof.
  intros Hret. unfold Dispatch. rewrite RegisterAll_lookup_total.
  by rewrite range_handlers_traced.
Qed.

Lemma Dispatch_calls_in_registration_order_witness :
  Dispatch (traced (λ (h : nat) (_ : Event) (w : list nat), (Returned tt, w ++ [h])))
    (RegisterAll NewEventBus "tick" [3; 1; 2]) "tick" (VInt 7) ([], [])
  = (Returned tt,
     ([3; 1; 2],
      [(3, {| Type_ := "tick"; Data := VInt 7 |});
       (1, {| Type_ := "tick"; Data := VInt 7 |});
       (2, {| Type_ := "tick"; Data := VInt 7 |})])).
Proof.
  apply (Dispatch_calls_in_registration_order
           (λ (h : nat) (_ : Event) (w : list nat), (Returned tt, w ++ [h]))
           NewEventBus "tick" [3; 1; 2] (VInt 7) []).
  intros h w' _. reflexivity.
Defined.

(** C7.  Dispatching an event type that has no handler registered returns
    normally and leaves the state it was given untouched, whatever the
    handler semantics and the state are: no handler is called, and on the
    server (where the state holds the handler table, the registry and the
    history) nothing changes at all. *)
Theorem Dispatch_without_handlers_is_noop {H W : Type}
    (call : H → Event → W → Outcome unit * W) (eb : EventBus.t H)
    (ty : string) (data : any) (w : W) :
  handlers eb !!! ty = [] →
  Dispatch call eb ty data w = (Returned tt, w).
Proof. intros Hnone. unfold Dispatch. by rewrite Hnone. Qed.

Lemma Dispatch_without_handlers_is_noop_witness :
  handlers (eventBus (cs sample_world)) !!! "shutdown" = [] ∧
  eventBus_Dispatch sample_env 0 "shutdown" VNil sample_world = (Returned tt, sample_world).
Proof.
  assert (handlers (eventBus (cs sample_world)) !!! "shutdown" = []) as Hnone
    by (vm_compute; reflexivity).
  split; [exact Hnone|].
  exact (Dispatch_without_handlers_is_noop (invoke sample_env 0)
           (eventBus (cs sample_world)) "shutdown" VNil sample_world Hnone).
Defined.

(** C10.  [Register(ty, h)] makes [h] the last handler of [ty] and leaves
    the entry of every other event type as it was (present or absent);
    [Dispatch] on the server's bus, whatever is registered and whatever the
    payload, leaves the handler table as it was. *)
Theorem Register_appends_and_Dispatch_keeps_table {H : Type}
    (eb : EventBus.t H) (ty ty' : string) (h : H)
    (env : Env) (fuel : nat) (ety : string) (data : any) (w : World) :
  ty' ≠ ty →
  handlers (Register eb ty h) !!! ty = handlers eb !!! ty ++ [h] ∧
  handlers (Register eb ty h) !! ty' = handlers eb !! ty' ∧
  eventBus (cs (eventBus_Dispatch env fuel ety data w).2) = eventBus (cs w).
Proof.
  intros Hne. split_and!.
  - apply Register_lookup_total.
  - by apply Register_lookup_ne.
  - by destruct (Dispatch_steps env fuel ety data w) as (seg & _ & _ & Hb).
Qed.

Lemma Register_appends_and_Dispatch_keeps_table_witness :
  "disconnected" ≠ "new-connection" ∧
  handlers (Register (eventBus (cs idle_world)) "new-connection" onDisconnected) !!! "new-connection"
  = handlers (eventBus (cs idle_world)) !!! "new-connection" ++ [onDisconnected] ∧
  handlers (Register (eventBus (cs idle_world)) "new-connection" onDisconnected) !! "disconnected"
  = handlers (eventBus (cs idle_world)) !! "disconnected" ∧
  eventBus (cs (eventBus_Dispatch sample_env 2 "message-received" (VString "hi") sample_world).2)
  = eventBus (cs sample_world).
Proof.
  assert ("disconnected" ≠ "new-connection") as Hne by discriminate.
  split; [exact Hne|].
  exact (Register_appends_and_Dispatch_keeps_table (eventBus (cs idle_world))
           "new-connection" "disconnected" onDisconnected
           sample_env 2 "message-received" (VString "hi") sample_world Hne).
Defined.

(** ** The registry *)

(** C3.  On the bus as [Start] wires it: after a [new-connection] dispatch
    for [c] the registry contains [c]; after a following [disconnected]
    dispatch for [c] it does not; and a [disconnected] dispatch for a
    connection that is not in the registry leaves the registry as it was.
    All three dispatches return normally. *)
Theorem registry_follows_connection_events (env : Env) (fuel : nat) (c : Conn) (w : World) :
  Wired w →
  let r1 := eventBus_Dispatch env (S fuel) "new-connection" (VConn c) w in
  let r2 := eventBus_Dispatch env (S fuel) "disconnected" (VConn c) r1.2 in
  let r3 := eventBus_Dispatch env (S fuel) "disconnected" (VConn c) w in
  (r1.1 = Returned tt ∧ clients (cs r1.2) !! c = Some true) ∧
  (r2.1 = Returned tt ∧ clients (cs r2.2) !! c = None) ∧
  (r3.1 = Returned tt ∧ (clients (cs w) !! c = None → clients (cs r3.2) = clients (cs w))).
Proof.
  intros Hw. cbv zeta.
  rewrite (Dispatch_new_connection env fuel c w Hw). cbn [fst snd].
  rewrite (Dispatch_disconnected env fuel c _ (Wired_connected env c w Hw)).
  rewrite (Dispatch_disconnected env fuel c w Hw). cbn [fst snd].
  split_and!; try done.
  - apply lookup_insert_eq.
  - rewrite clients_disconnected. apply lookup_delete_eq.
  - intros Habs. rewrite clients_disconnected. by apply delete_id.
Qed.

Lemma registry_follows_connection_events_witness :
  let r1 := eventBus_Dispatch sample_env 1 "new-connection" (VConn 9) sample_world in
  let r2 := eventBus_Dispatch sample_env 1 "disconnected" (VConn 9) r1.2 in
  let r3 := eventBus_Dispatch sample_env 1 "disconnected" (VConn 9) sample_world in
  (r1.1 = Returned tt ∧ clients (cs r1.2) !! 9 = Some true) ∧
  (r2.1 = Returned tt ∧ clients (cs r2.2) !! 9 = None) ∧
  (r3.1 = Returned tt ∧
   (clients (cs sample_world) !! 9 = None → clients (cs r3.2) = clients (cs sample_world))).
Proof.
  exact (registry_follows_connection_events sample_env 0 9 sample_world sample_world_Wired).
Defined.

(** C6, as worded, fails: with nobody connected, the second [disconnected]
    dispatch for connection 7 prints the same notice as the first. *)
Lemma second_disconnect_repeats_notice :
  clients (cs idle_world) !! 7 = None ∧
  ¬ second_disconnect_repeats_nothing sample_env 1 7 idle_world.
Proof.
  split; [by vm_compute|].
  intros (_ & _ & _ & Hrep).
  apply (Hrep ("Disconnected from 10.0.0.1:4001" +:+ nl)); vm_compute; by left.
Qed.

(** C6, amended.  For a connection that is not in the registry, two
    [disconnected] dispatches in a row both return normally and both leave
    the registry (and the handler table) unchanged; each of them prints the
    notice "Disconnected from <remote address>", so the notice appears
    twice. *)
Theorem repeated_disconnect_keeps_registry_and_prints_again
    (env : Env) (fuel : nat) (c : Conn) (w : World) :
  Wired w → clients (cs w) !! c = None →
  let r1 := eventBus_Dispatch env (S fuel) "disconnected" (VConn c) w in
  let r2 := eventBus_Dispatch env (S fuel) "disconnected" (VConn c) r1.2 in
  r1.1 = Returned tt ∧ r2.1 = Returned tt ∧
  clients (cs r1.2) = clients (cs w) ∧ clients (cs r2.2) = clients (cs w) ∧
  eventBus (cs r2.2) = eventBus (cs w) ∧
  printed (new_obs w r1.2) = ["Disconnected from " +:+ conn_RemoteAddr env c +:+ nl] ∧
  printed (new_obs r1.2 r2.2) = ["Disconnected from " +:+ conn_RemoteAddr env c +:+ nl].
Proof.
  intros Hw Habs. cbv zeta.
  rewrite (Dispatch_disconnected env fuel c w Hw). cbn [fst snd].
  rewrite (Dispatch_disconnected env fuel c _ (Wired_disconnected env c w Hw)). cbn [fst snd].
  rewrite !clients_disconnected, !(delete_id _ _ Habs).
  split_and!; try done.
  - by rewrite (new_obs_app _ _ _ (trace_disconnected env c w)).
  - by rewrite (new_obs_app _ _ _ (trace_disconnected env c (disconnected env c w))).
Qed.

Lemma repeated_disconnect_keeps_registry_and_prints_again_witness :
  let r1 := eventBus_Dispatch sample_env 1 "disconnected" (VConn 7) idle_world in
  let r2 := eventBus_Dispatch sample_env 1 "disconnected" (VConn 7) r1.2 in
  r1.1 = Returned tt ∧ r2.1 = Returned tt ∧
  clients (cs r1.2) = clients (cs idle_world) ∧ clients (cs r2.2) = clients (cs idle_world) ∧
  eventBus (cs r2.2) = eventBus (cs idle_world) ∧
  printed (new_obs idle_world r1.2) = ["Disconnected from " +:+ conn_RemoteAddr sample_env 7 +:+ nl] ∧
  printed (new_obs r1.2 r2.2) = ["Disconnected from " +:+ conn_RemoteAddr sample_env 7 +:+ nl].
Proof.
  apply (repeated_disconnect_keeps_registry_and_prints_again sample_env 0 7 idle_world
           idle_world_Wired).
  vm_compute. reflexivity.
Defined.

(** ** The broadcast *)

(** C2.  On the bus as [Start] wires it, a [message-received] dispatch with
    payload [msg] returns normally and, between its start and its return:
    there is exactly one [Write] per member of the registry (so as many
    writes as members, nobody excluded), every one of them carrying exactly
    the bytes of [msg]; the members whose write failed, and only those, have
    left the registry; for each of them, in the order of the failures, the
    [disconnected] handler was called with that connection.  A failed write
    stops nothing: the writes still cover all members, and the dispatch
    returns normally, so the failure reaches nobody. *)
Theorem broadcast_reaches_every_member (env : Env) (fuel : nat) (msg : string) (w : World) :
  range_ok env → Wired w →
  let r := eventBus_Dispatch env (S (S fuel)) "message-received" (VString msg) w in
  let seg := new_obs w r.2 in
  r.1 = Returned tt ∧
  (writes seg).*1.*1 ≡ₚ (map_to_list (clients (cs w))).*1 ∧
  length (writes seg) = size (clients (cs w)) ∧
  Forall (λ x, x.1.2 = list_byte_of_string msg) (writes seg) ∧
  (∀ c, clients (cs r.2) !! c
        = if decide (c ∈ failed_writes seg) then None else clients (cs w) !! c) ∧
  calls onDisconnected seg = disconnect_event <$> failed_writes seg.
Proof.
  intros Hrange Hw. cbv zeta.
  rewrite (Dispatch_message_received env fuel msg w Hw). cbn [fst snd].
  unfold relayed. cbv zeta.
  set (ev := {| Type_ := "message-received"; Data := VString msg |}).
  set (w0 := emit (ObsCall onMessageReceived ev) w).
  set (b := list_byte_of_string msg).
  set (keys := range_keys env (clients (cs w0)) (trace w0)).
  assert (keys ≡ₚ (map_to_list (clients (cs w))).*1) as Hperm by apply Hrange.
  assert (NoDup keys) as Hnd.
  { rewrite Hperm. apply NoDup_fst_map_to_list. }
  assert (∀ c, c ∈ keys → is_Some (clients (cs w0) !! c)) as Hin.
  { intros c Hc. rewrite Hperm in Hc.
    apply list_elem_of_fmap in Hc as ([c' v] & -> & Hcv).
    apply elem_of_map_to_list in Hcv. by exists v. }
  destruct (broadcast_members env b keys w0 Hnd Hin) as (seg & Ht & Hws & Hcalls & Hcl).
  destruct (broadcast_relay env b keys w0) as (seg' & Ht' & Hrel).
  assert (seg' = seg) as -> by (rewrite Ht in Ht'; by apply app_inv_head in Ht').
  assert (trace (broadcast env b keys w0) = trace w ++ ObsCall onMessageReceived ev :: seg)
    as Hfull by (rewrite Ht; unfold w0, emit; simpl; by rewrite <- app_assoc).
  rewrite (new_obs_app _ _ _ Hfull).
  assert (writes (ObsCall onMessageReceived ev :: seg) = writes seg) as -> by done.
  assert (failed_writes (ObsCall onMessageReceived ev :: seg) = failed_writes seg) as -> by done.
  assert (calls onDisconnected (ObsCall onMessageReceived ev :: seg) = calls onDisconnected seg)
    as -> by done.
  split_and!; try done.
  - by rewrite Hws.
  - rewrite <- (length_fmap fst), <- (length_fmap fst (fst <$> _)), Hws, Hperm.
    rewrite length_fmap. apply length_map_to_list.
  - by apply relay_obs_writes.
  - intros c. rewrite Hcl. apply lookup_foldl_delete.
Qed.

Lemma broadcast_reaches_every_member_witness :
  let r := eventBus_Dispatch sample_env 2 "message-received" (VString "hi") sample_world in
  let seg := new_obs sample_world r.2 in
  r.1 = Returned tt ∧
  (writes seg).*1.*1 ≡ₚ (map_to_list (clients (cs sample_world))).*1 ∧
  length (writes seg) = size (clients (cs sample_world)) ∧
  Forall (λ x, x.1.2 = list_byte_of_string "hi") (writes seg) ∧
  (∀ c, clients (cs r.2) !! c
        = if decide (c ∈ failed_writes seg) then None else clients (cs sample_world) !! c) ∧
  calls onDisconnected seg = disconnect_event <$> failed_writes seg.
Proof.
  exact (broadcast_reaches_every_member sample_env 0 "hi" sample_world
           sample_env_range_ok sample_world_Wired).
Defined.

(** ** Start-up and the accept loop *)

(** C8.  When binding the listening endpoint fails, [Start] returns that
    error at once: the only thing that happened is the failed [Listen]; no
    handler was registered, no connection accepted.  [main] then prints
    "Error starting server: <error>" and returns, so the process ends
    having served nothing. *)
Theorem bind_failure_is_fatal (env : Env) (fuel iters : nat) (port : string)
    (w : World) (e e0 : error) :
  net_Listen env port (trace w) = Some e →
  net_Listen env ":8000" [] = Some e0 →
  Start env fuel iters port w
  = (Returned (Some e), {| cs := cs w; trace := trace w ++ [ObsListen port (Some e)] |}) ∧
  main env fuel iters
  = (Returned tt,
     {| cs := NewChatServer;
        trace := [ObsListen ":8000" (Some e0);
                  ObsPrintf ("Error starting server: " +:+ e0 +:+ nl)] |}).
Proof.
  intros He He0. split.
  - unfold Start. cbv zeta. by rewrite He.
  - unfold main, Start. cbv zeta. simpl trace. by rewrite He0.
Qed.

Lemma bind_failure_is_fatal_witness :
  Start busy_env 2 5 ":9000" sample_world
  = (Returned (Some "address already in use"),
     {| cs := cs sample_world;
        trace := trace sample_world ++ [ObsListen ":9000" (Some "address already in use")] |}) ∧
  main busy_env 2 5
  = (Returned tt,
     {| cs := NewChatServer;
        trace := [ObsListen ":8000" (Some "address already in use");
                  ObsPrintf ("Error starting server: " +:+ "address already in use" +:+ nl)] |}).
Proof.
  apply (bind_failure_is_fatal busy_env 2 5 ":9000" sample_world
           "address already in use" "address already in use"); reflexivity.
Defined.

Lemma invoke_bad_payload env fuel h event w :
  accepts h (Data event) = false →
  is_panic (invoke env (S fuel) h event w).1 = true.
Proof. intros Hbad. rewrite invoke_S. cbv zeta. by destruct h, (Data event). Qed.

(** C9.  On the bus as [Start] wires it, a dispatch of one of the three
    event types panics in the handler's cast when the payload does not have
    the documented shape, and returns normally when it has: with the
    documented payloads no handler can fail, and each one terminates. *)
Theorem handlers_panic_exactly_on_bad_payload (env : Env) (fuel : nat)
    (ty : string) (data : any) (w : World) :
  Wired w →
  ty ∈ ["new-connection"; "disconnected"; "message-received"] →
  let r := eventBus_Dispatch env (S (S fuel)) ty data w in
  if documented_payload ty data then r.1 = Returned tt else is_panic r.1 = true.
Proof.
  intros Hw Hty. pose proof Hw as (Hn & Hd & Hm). cbv zeta.
  assert (∀ h, handlers (eventBus (cs w)) !!! ty = [h] →
               accepts h data = false →
               is_panic (eventBus_Dispatch env (S (S fuel)) ty data w).1 = true) as Hbad.
  { intros h Hh Hacc. unfold eventBus_Dispatch, Dispatch. rewrite Hh.
    pose proof (invoke_bad_payload env (S fuel) h {| Type_ := ty; Data := data |} w Hacc) as Hp.
    cbn [range_handlers].
    by destruct (invoke env (S (S fuel)) h {| Type_ := ty; Data := data |} w) as [[] w']. }
  repeat (apply elem_of_cons in Hty as [-> | Hty]); [| | |by apply elem_of_nil in Hty].
  - destruct data; simpl; try (by apply (Hbad onNewConnection)).
    by rewrite Dispatch_new_connection.
  - destruct data; simpl; try (by apply (Hbad onDisconnected)).
    by rewrite Dispatch_disconnected.
  - destruct data; simpl; try (by apply (Hbad onMessageReceived)).
    by rewrite Dispatch_message_received.
Qed.

Lemma handlers_panic_exactly_on_bad_payload_witness :
  (eventBus_Dispatch sample_env 2 "message-received" (VString "hi") sample_world).1 = Returned tt ∧
  is_panic (eventBus_Dispatch sample_env 2 "disconnected" (VString "hi") sample_world).1 = true.
Proof.
  split.
  - apply (handlers_panic_exactly_on_bad_payload sample_env 0 "message-received"
             (VString "hi") sample_world sample_world_Wired).
    repeat constructor.
  - apply (handlers_panic_exactly_on_bad_payload sample_env 0 "disconnected"
             (VString "hi") sample_world sample_world_Wired).
    repeat constructor.
Defined.

Lemma relay_obs_no_read_sizes b seg : Forall (relay_obs b) seg → read_sizes seg = [].
Proof.
  induction 1 as [|o seg Ho _ IH]; [done|].
  unfold read_sizes in *; simpl. by destruct o.
Qed.

Lemma relay_obs_no_successful_reads b seg :
  Forall (relay_obs b) seg → successful_reads seg = [].
Proof.
  induction 1 as [|o seg Ho _ IH]; [done|].
  unfold successful_reads in *; simpl. by destruct o.
Qed.

Lemma relay_obs_no_failed_reads b seg :
  Forall (relay_obs b) seg → failed_reads seg = [].
Proof.
  induction 1 as [|o seg Ho _ IH]; [done|].
  unfold failed_reads in *; simpl. by destruct o.
Qed.

Lemma handler_obs_no_reads seg : Forall handler_obs seg → reads seg = [].
Proof.
  induction 1 as [|o seg Ho _ IH]; [done|].
  unfold reads in *; simpl. by destruct o.
Qed.

Section accept_facts.
Variable env : Env.

Lemma trace_connected c w :
  trace (connected env c w)
  = trace w ++ [ObsCall onNewConnection (connect_event c);
                ObsPrintf ("New connection from " +:+ conn_RemoteAddr env c +:+ nl)].
Proof. unfold connected, emit; simpl. by rewrite <- app_assoc. Qed.

(** On a wired bus the accept loop never leaves, and all it ever does is
    accept, print and run [onNewConnection]. *)
Lemma accept_loop_quiet fuel iters w :
  Wired w →
  ∃ seg, trace (accept_loop env (S fuel) iters w).2 = trace w ++ seg ∧
         (accept_loop env (S fuel) iters w).1 = Looping ∧
         reads seg = [] ∧ calls onMessageReceived seg = [].
Proof.
  revert w. induction iters as [|iters IH]; intros w Hw.
  - exists []. by rewrite app_nil_r.
  - cbn [accept_loop]. cbv zeta.
    destruct (listener_Accept env (trace w)) as [c|e].
    + set (w1 := emit (ObsAccept (inl c)) w).
      assert (Wired w1) as Hw1 by done.
      rewrite (Dispatch_new_connection env fuel c w1 Hw1).
      destruct (IH (connected env c w1) (Wired_connected env c w1 Hw1))
        as (seg & Ht & Ho & Hr & Hc).
      exists (ObsAccept (inl c) :: ObsCall onNewConnection (connect_event c)
              :: ObsPrintf ("New connection from " +:+ conn_RemoteAddr env c +:+ nl) :: seg).
      split_and!; [|done|revert Hr; unfold reads; simpl; done
                          |revert Hc; unfold calls; simpl; done].
      rewrite Ht, trace_connected. unfold w1, emit; simpl trace.
      by rewrite <- !app_assoc.
    + set (w1 := emit (ObsPrintf ("Error accepting connection: " +:+ e +:+ nl))
                   (emit (ObsAccept (inr e)) w)).
      destruct (IH w1 Hw) as (seg & Ht & Ho & Hr & Hc).
      exists (ObsAccept (inr e)
              :: ObsPrintf ("Error accepting connection: " +:+ e +:+ nl) :: seg).
      split_and!; [|done|revert Hr; unfold reads; simpl; done
                          |revert Hc; unfold calls; simpl; done].
      rewrite Ht. unfold w1, emit; simpl trace.
      by rewrite <- !app_assoc.
Qed.

End accept_facts.

Lemma Start_listening env fuel iters port w :
  net_Listen env port (trace w) = None →
  Start env fuel iters port w = accept_loop env fuel iters (listening port w).
Proof. intros Hl. unfold Start. cbv zeta. by rewrite Hl. Qed.

Lemma Wired_listening port : Wired (listening port init_world).
Proof. by vm_compute. Qed.

Lemma trace_listening port w :
  trace (listening port w)
  = trace w ++ [ObsListen port None;
                ObsPrintf ("Listening on port " +:+ port +:+ "..." +:+ nl)].
Proof. unfold listening, emit; simpl. by rewrite <- app_assoc. Qed.

(** Two iterations of the accept loop in the sample environment: each
    accepted connection is announced to the bus, and that is all. *)
Example main_accepts_two_connections :
  main sample_env 2 2
  = (Looping,
     {| cs := {| eventBus := eventBus (cs idle_world);
                 clients := <[2 := true]> (<[1 := true]> ∅) |};
        trace := [ObsListen ":8000" None;
                  ObsPrintf ("Listening on port :8000..." +:+ nl);
                  ObsAccept (inl 1);
                  ObsCall onNewConnection (connect_event 1);
                  ObsPrintf ("New connection from 10.0.0.1:4001" +:+ nl);
                  ObsAccept (inl 2);
                  ObsCall onNewConnection (connect_event 2);
                  ObsPrintf ("New connection from 10.0.0.2:4002" +:+ nl)] |}).
Proof. by vm_compute. Qed.

(** C4 on the code.  Whatever the environment does and however long the
    server runs, [main] never reads from a connection and never calls the
    [message-received] handler: the accept loop dispatches [new-connection]
    and goes back to accepting; no reader is started for the accepted
    connection.  (When binding succeeds the loop is never left.) *)
Theorem accept_loop_starts_no_reader (env : Env) (fuel iters : nat) :
  let r := main env (S fuel) iters in
  reads (trace r.2) = [] ∧
  calls onMessageReceived (trace r.2) = [] ∧
  r.1 = match net_Listen env ":8000" [] with Some _ => Returned tt | None => Looping end.
Proof.
  cbv zeta. unfold main. cbv zeta. fold init_world.
  destruct (net_Listen env ":8000" []) as [e|] eqn:Hl.
  - unfold Start. cbv zeta. simpl trace. by rewrite Hl.
  - rewrite (Start_listening env (S fuel) iters ":8000" init_world Hl).
    destruct (accept_loop_quiet env fuel iters _ (Wired_listening ":8000"))
      as (seg & Ht & Ho & Hr & Hc).
    destruct (accept_loop env (S fuel) iters (listening ":8000" init_world)) as [o w'].
    cbn [fst snd] in Ht, Ho. subst o. cbn [fst snd]. rewrite Ht, trace_listening.
    by rewrite !reads_app, !calls_app, Hr, Hc.
Qed.

(** ** The reader loop *)

Lemma length_stored buf data : length (stored buf data) = length buf.
Proof.
  unfold stored. rewrite length_take, length_app, length_drop. lia.
Qed.

Lemma slice_to_stored buf data :
  length data ≤ length buf →
  slice_to (stored buf data) (length data) = Some data.
Proof.
  intros Hle. unfold slice_to. rewrite length_stored.
  rewrite decide_True by done. f_equal. unfold stored.
  rewrite take_take, Nat.min_l by done. by rewrite take_app_length.
Qed.

Lemma Client_Dispatch_eq env fuel c ty data w :
  Client_Dispatch env fuel c ty data w = eventBus_Dispatch env fuel ty data w.
Proof. unfold Client_Dispatch. by destruct (client_eventBus c). Qed.

Section reader_facts.
Variable env : Env.
Hypothesis Hread : read_ok env.

Lemma trace_relayed msg w :
  ∃ seg, trace (relayed env msg w)
         = trace w ++ ObsCall onMessageReceived
                        {| Type_ := "message-received"; Data := VString msg |} :: seg ∧
         Forall (relay_obs (list_byte_of_string msg)) seg.
Proof.
  unfold relayed. cbv zeta.
  match goal with
  | |- context [broadcast env ?b ?keys ?w0] =>
      destruct (broadcast_relay env b keys w0) as (seg & Ht & Hrel)
  end.
  exists seg. split; [|done]. rewrite Ht. unfold emit; simpl. by rewrite <- app_assoc.
Qed.

Lemma reader_loop_spec fuel iters c buf w :
  length buf = 1024 → Wired w →
  let r := reader_loop env (S (S fuel)) iters c buf w in
  ∃ seg, trace r.2 = trace w ++ seg ∧
    read_sizes seg = replicate (length (reads seg)) 1024 ∧
    Forall (λ x, x.1.1 = conn c ∧ length x.1.2 ≤ 1024) (reads seg) ∧
    calls onMessageReceived seg = message_event <$> successful_reads seg ∧
    ((r.1 = Looping ∧ failed_reads seg = [] ∧ length (reads seg) = iters) ∨
     (r.1 = Returned tt ∧
      ∃ pre d e post,
        seg = pre ++ ObsRead (conn c) 1024 d (Some e)
                     :: ObsCall onDisconnected (disconnect_event (conn c)) :: post ∧
        failed_reads pre = [] ∧ reads post = [] ∧ calls onMessageReceived post = [])).
Proof.
  revert buf w. induction iters as [|iters IH]; intros buf w Hbuf Hw; cbv zeta.
  - exists []. rewrite app_nil_r. split_and!; try done. by left.
  - cbn [reader_loop].
    pose proof (Hread (conn c) (length buf) (trace w)) as Hlen.
    destruct (conn_Read env (conn c) (length buf) (trace w)) as [data err].
    cbn [fst] in Hlen. cbv zeta.
    assert (length data ≤ 1024) as Hlen' by lia.
    set (w1 := emit (ObsRead (conn c) (length buf) data err) w).
    assert (Wired w1) as Hw1 by done.
    destruct err as [e|].
    + rewrite Client_Dispatch_eq.
      rewrite (Dispatch_disconnected env (S fuel) (conn c) w1 Hw1). cbn [fst snd].
      exists [ObsRead (conn c) (length buf) data (Some e);
              ObsCall onDisconnected (disconnect_event (conn c));
              ObsPrintf ("Disconnected from " +:+ conn_RemoteAddr env (conn c) +:+ nl)].
      split_and!.
      * rewrite trace_disconnected. unfold w1, emit; simpl trace. by rewrite <- app_assoc.
      * unfold read_sizes, reads; simpl. by rewrite Hbuf.
      * unfold reads; simpl. constructor; [simpl; split; [done|lia]|constructor].
      * done.
      * right. split; [done|].
        exists [], data, e,
          [ObsPrintf ("Disconnected from " +:+ conn_RemoteAddr env (conn c) +:+ nl)].
        by rewrite Hbuf.
    + rewrite (slice_to_stored buf data Hlen), Client_Dispatch_eq.
      rewrite (Dispatch_message_received env fuel _ w1 Hw1).
      destruct (trace_relayed (string_of_list_byte data) w1) as (segb & Htb & Hrel).
      set (w2 := relayed env (string_of_list_byte data) w1) in *.
      assert (Wired w2) as Hw2 by (by apply Wired_broadcast).
      destruct (IH (stored buf data) w2) as (seg & Ht & Hsz & Hrd & Hcalls & Hend);
        [by rewrite length_stored|done|].
      set (r := reader_loop env (S (S fuel)) iters c (stored buf data) w2) in *.
      clearbody r.
      set (head := [ObsRead (conn c) (length buf) data None;
                    ObsCall onMessageReceived (message_event data)] ++ segb).
      assert (reads head = [(conn c, data, None)]) as Hh1
        by (unfold head; by rewrite reads_app, (relay_obs_no_reads _ _ Hrel)).
      assert (read_sizes head = [1024]) as Hh0
        by (unfold head; rewrite read_sizes_app, (relay_obs_no_read_sizes _ _ Hrel);
            unfold read_sizes; simpl; by rewrite Hbuf).
      assert (successful_reads head = [data]) as Hh2
        by (unfold head;
            by rewrite successful_reads_app, (relay_obs_no_successful_reads _ _ Hrel)).
      assert (failed_reads head = []) as Hh3
        by (unfold head; by rewrite failed_reads_app, (relay_obs_no_failed_reads _ _ Hrel)).
      assert (calls onMessageReceived head = [message_event data]) as Hh4
        by (unfold head; by rewrite calls_app, (relay_obs_no_messages _ _ Hrel)).
      exists (head ++ seg). split_and!.
      * rewrite Ht, Htb. unfold head, w1, emit, message_event; simpl trace.
        by rewrite <- !app_assoc.
      * by rewrite read_sizes_app, reads_app, Hh0, Hh1, Hsz.
      * rewrite reads_app, Hh1. constructor; [simpl; split; [done|lia]|done].
      * by rewrite calls_app, successful_reads_app, Hh4, Hh2, Hcalls.
      * destruct Hend as [(Ho & Hf & Hn) | (Ho & pre & d & e & post & -> & Hf & Hp & Hc)].
        -- left. rewrite failed_reads_app, reads_app, Hh1, Hh3, Hf. simpl.
           split_and!; [done|done|by rewrite Hn].
        -- right. split; [done|].
           exists (head ++ pre), d, e, post.
           rewrite failed_reads_app, Hh3, Hf, <- app_assoc. done.
Qed.

End reader_facts.

(** C5.  [Client.Start], after announcing its connection, reads into one
    buffer of 1024 bytes: every [Read] it makes is given a buffer of
    exactly 1024 bytes, is on its own connection and returns at most 1024
    bytes; the events the [message-received] handler is called
    with are, one for one and in order, the successful reads, each carrying
    as text exactly the bytes that read returned; and either the loop is
    still running, every read so far having succeeded, or it has returned,
    and then its last read failed and was followed by the [disconnected]
    dispatch for the connection, with no failed read before it and no read
    and no message after it.  The bus is the one [Start] wires, and [Read]
    respects the length of the buffer it is given. *)
Theorem reader_loop_relays_each_read (env : Env) (fuel iters : nat) (c : Client) (w : World) :
  read_ok env → Wired w →
  let r := Client_Start env (S (S fuel)) iters c w in
  let seg := new_obs w r.2 in
  read_sizes seg = replicate (length (reads seg)) 1024 ∧
  Forall (λ x, x.1.1 = conn c ∧ length x.1.2 ≤ 1024) (reads seg) ∧
  calls onMessageReceived seg = message_event <$> successful_reads seg ∧
  ((r.1 = Looping ∧ failed_reads seg = [] ∧ length (reads seg) = iters) ∨
   (r.1 = Returned tt ∧
    ∃ pre d e post,
      seg = pre ++ ObsRead (conn c) 1024 d (Some e)
                   :: ObsCall onDisconnected (disconnect_event (conn c)) :: post ∧
      failed_reads pre = [] ∧ reads post = [] ∧ calls onMessageReceived post = [])).
Proof.
  intros Hread Hw. cbv zeta. unfold Client_Start. rewrite Client_Dispatch_eq.
  rewrite (Dispatch_new_connection env (S fuel) (conn c) w Hw).
  destruct (reader_loop_spec env Hread fuel iters c (make_bytes 1024)
              (connected env (conn c) w)) as (seg & Ht & Hsz & Hrd & Hcalls & Hend);
    [apply length_replicate | by apply Wired_connected |].
  set (r := reader_loop env (S (S fuel)) iters c (make_bytes 1024) (connected env (conn c) w)) in *.
  clearbody r.
  set (head := [ObsCall onNewConnection (connect_event (conn c));
                ObsPrintf ("New connection from " +:+ conn_RemoteAddr env (conn c) +:+ nl)]).
  assert (trace r.2 = trace w ++ head ++ seg) as Hfull
    by (rewrite Ht, trace_connected; by rewrite <- app_assoc).
  rewrite (new_obs_app _ _ _ Hfull).
  rewrite read_sizes_app, reads_app, calls_app, successful_reads_app, failed_reads_app.
  change (read_sizes head) with (@nil nat).
  change (reads head) with (@nil (Conn * list byte * option error)).
  change (calls onMessageReceived head) with (@nil Event).
  change (successful_reads head) with (@nil (list byte)).
  change (failed_reads head) with (@nil error).
  rewrite !app_nil_l. split_and!; [done|done|done|].
  destruct Hend as [?|(Ho & pre & d & e & post & -> & Hf & Hp & Hc)]; [by left|].
  right. split; [done|]. exists (head ++ pre), d, e, post.
  rewrite failed_reads_app, Hf, <- app_assoc. done.
Qed.

Lemma reader_loop_relays_each_read_witness :
  let r := Client_Start sample_env 2 5 (NewClient 4 server_bus) sample_world in
  let seg := new_obs sample_world r.2 in
  read_sizes seg = replicate (length (reads seg)) 1024 ∧
  Forall (λ x, x.1.1 = 4 ∧ length x.1.2 ≤ 1024) (reads seg) ∧
  calls onMessageReceived seg = message_event <$> successful_reads seg ∧
  ((r.1 = Looping ∧ failed_reads seg = [] ∧ length (reads seg) = 5) ∨
   (r.1 = Returned tt ∧
    ∃ pre d e post,
      seg = pre ++ ObsRead 4 1024 d (Some e)
                   :: ObsCall onDisconnected (disconnect_event 4) :: post ∧
      failed_reads pre = [] ∧ reads post = [] ∧ calls onMessageReceived post = [])).
Proof.
  exact (reader_loop_relays_each_read sample_env 0 5 (NewClient 4 server_bus) sample_world
           sample_env_read_ok sample_world_Wired).
Defined.


(** * Further properties of the code *)

Lemma accept_results_app tr1 tr2 :
  accept_results (tr1 ++ tr2) = accept_results tr1 ++ accept_results tr2.
Proof. apply omap_app. Qed.

Lemma accepted_app tr1 tr2 : accepted (tr1 ++ tr2) = accepted tr1 ++ accepted tr2.
Proof. apply omap_app. Qed.

Lemma clients_connected env c w :
  clients (cs (connected env c w)) = <[c := true]> (clients (cs w)).
Proof. done. Qed.

Lemma eventBus_connected env c w :
  eventBus (cs (connected env c w)) = eventBus (cs w).
Proof. done. Qed.

(** ** The accept loop *)

Lemma accept_loop_eventBus env fuel iters w :
  eventBus (cs (accept_loop env fuel iters w).2) = eventBus (cs w).
Proof.
  revert w. induction iters as [|iters IH]; intros w; [done|].
  cbn [accept_loop]. cbv zeta.
  destruct (listener_Accept env (trace w)) as [c|e].
  - set (w1 := emit (ObsAccept (inl c)) w).
    destruct (Dispatch_steps env fuel "new-connection" (VConn c) w1) as (seg & _ & _ & Hb).
    destruct (eventBus_Dispatch env fuel "new-connection" (VConn c) w1) as [[] w2];
      cbn [fst snd] in *; try done.
    by rewrite IH.
  - by rewrite IH.
Qed.

(** X1.  When binding succeeds, [Start] appends exactly one handler to each
    of the three event types (after any that were registered before),
    leaves every other event type as it was, and the accept loop, however
    long it runs, never changes the handler table again. *)
Theorem Start_registers_one_handler_per_type (env : Env) (fuel iters : nat)
    (port : string) (w : World) (ty : string) :
  net_Listen env port (trace w) = None →
  let before := handlers (eventBus (cs w)) in
  let after := handlers (eventBus (cs (Start env fuel iters port w).2)) in
  after !!! "new-connection" = before !!! "new-connection" ++ [onNewConnection] ∧
  after !!! "disconnected" = before !!! "disconnected" ++ [onDisconnected] ∧
  after !!! "message-received" = before !!! "message-received" ++ [onMessageReceived] ∧
  (ty ∉ ["new-connection"; "disconnected"; "message-received"] →
   after !! ty = before !! ty).
Proof.
  intros Hl. cbv zeta. rewrite (Start_listening env fuel iters port w Hl).
  rewrite accept_loop_eventBus. unfold listening. cbv zeta. cbn [set_eventBus cs eventBus emit].
  split_and!.
  - rewrite !Register_lookup_total_ne by done. apply Register_lookup_total.
  - rewrite Register_lookup_total_ne by done. rewrite Register_lookup_total.
    by rewrite Register_lookup_total_ne by done.
  - rewrite Register_lookup_total. by rewrite !Register_lookup_total_ne by done.
  - intros Hty. rewrite !Register_lookup_ne; [done|..];
      intros ->; apply Hty; repeat constructor.
Qed.

Lemma Start_registers_one_handler_per_type_witness :
  let before := handlers (eventBus (cs sample_world)) in
  let after := handlers (eventBus (cs (Start sample_env 2 1 ":8001" sample_world).2)) in
  after !!! "new-connection" = [onNewConnection; onNewConnection] ∧
  after !!! "disconnected" = [onDisconnected; onDisconnected] ∧
  after !!! "message-received" = [onMessageReceived; onMessageReceived] ∧
  ("shutdown" ∉ ["new-connection"; "disconnected"; "message-received"] →
   after !! "shutdown" = before !! "shutdown").
Proof.
  exact (Start_registers_one_handler_per_type sample_env 2 1 ":8001" sample_world
           "shutdown" eq_refl).
Defined.

Lemma accept_loop_trace env fuel iters w :
  Wired w →
  ∃ seg, trace (accept_loop env (S fuel) iters w).2 = trace w ++ seg ∧
         (accept_loop env (S fuel) iters w).1 = Looping ∧
         length (accept_results seg) = iters ∧
         calls onNewConnection seg = connect_event <$> accepted seg ∧
         calls onDisconnected seg = [] ∧
         writes seg = [] ∧
         printed seg = accept_notice env <$> accept_results seg ∧
         clients (cs (accept_loop env (S fuel) iters w).2)
         = foldl (λ m c, <[c := true]> m) (clients (cs w)) (accepted seg).
Proof.
  revert w. induction iters as [|iters IH]; intros w Hw.
  - exists []. by rewrite app_nil_r.
  - cbn [accept_loop]. cbv zeta.
    destruct (listener_Accept env (trace w)) as [c|e].
    + set (w1 := emit (ObsAccept (inl c)) w).
      assert (Wired w1) as Hw1 by done.
      rewrite (Dispatch_new_connection env fuel c w1 Hw1).
      destruct (IH (connected env c w1) (Wired_connected env c w1 Hw1))
        as (seg & Ht & Ho & Hn & Hc & Hd & Hwr & Hp & Hcl).
      set (head := [ObsAccept (inl c); ObsCall onNewConnection (connect_event c);
                    ObsPrintf ("New connection from " +:+ conn_RemoteAddr env c +:+ nl)]).
      exists (head ++ seg).
      rewrite accept_results_app, accepted_app, !calls_app, writes_app, printed_app, !fmap_app.
      rewrite Hc, Hd, Hwr, Hp, Hcl, length_app, Hn, foldl_app.
      split_and!; try done.
      rewrite Ht, trace_connected. unfold w1, emit; simpl trace.
      by rewrite <- !app_assoc.
    + set (w1 := emit (ObsPrintf ("Error accepting connection: " +:+ e +:+ nl))
                   (emit (ObsAccept (inr e)) w)).
      destruct (IH w1 Hw) as (seg & Ht & Ho & Hn & Hc & Hd & Hwr & Hp & Hcl).
      set (head := [ObsAccept (inr e);
                    ObsPrintf ("Error accepting connection: " +:+ e +:+ nl)]).
      exists (head ++ seg).
      rewrite accept_results_app, accepted_app, !calls_app, writes_app, printed_app, !fmap_app.
      rewrite Hc, Hd, Hwr, Hp, Hcl, length_app, Hn.
      split_and!; try done.
      rewrite Ht. unfold w1, emit; simpl trace. by rewrite <- !app_assoc.
Qed.

(** X2.  On the bus as [Start] wires it the accept loop never ends and
    never panics: after [iters] iterations it has called [Accept] [iters]
    times, whatever errors [Accept] returned; it has called the
    [new-connection] handler once for every accepted connection, in order,
    and never the [disconnected] handler; it has printed one notice per
    [Accept]; and the registry is the one it started with plus the accepted
    connections. *)
Theorem accept_loop_registers_each_accepted (env : Env) (fuel iters : nat) (w : World) :
  Wired w →
  let r := accept_loop env (S fuel) iters w in
  let seg := new_obs w r.2 in
  r.1 = Looping ∧
  length (accept_results seg) = iters ∧
  calls onNewConnection seg = connect_event <$> accepted seg ∧
  calls onDisconnected seg = [] ∧
  printed seg = accept_notice env <$> accept_results seg ∧
  clients (cs r.2) = foldl (λ m c, <[c := true]> m) (clients (cs w)) (accepted seg).
Proof.
  intros Hw. cbv zeta.
  destruct (accept_loop_trace env fuel iters w Hw)
    as (seg & Ht & Ho & Hn & Hc & Hd & _ & Hp & Hcl).
  by rewrite (new_obs_app _ _ _ Ht).
Qed.

Lemma accept_loop_registers_each_accepted_witness :
  let r := accept_loop sample_env 1 5 idle_world in
  let seg := new_obs idle_world r.2 in
  r.1 = Looping ∧
  length (accept_results seg) = 5 ∧
  calls onNewConnection seg = connect_event <$> accepted seg ∧
  calls onDisconnected seg = [] ∧
  printed seg = accept_notice sample_env <$> accept_results seg ∧
  clients (cs r.2) = foldl (λ m c, <[c := true]> m) (clients (cs idle_world)) (accepted seg).
Proof.
  exact (accept_loop_registers_each_accepted sample_env 0 5 idle_world idle_world_Wired).
Defined.

(** ** The registry *)

(** X3.  On the bus as [Start] wires it, a [new-connection] or a
    [disconnected] dispatch for [c] touches the registry entry of [c] only:
    whether any other connection is a member is left as it was. *)
Theorem connection_events_touch_one_entry (env : Env) (fuel : nat) (c c' : Conn) (w : World) :
  Wired w → c' ≠ c →
  clients (cs (eventBus_Dispatch env (S fuel) "new-connection" (VConn c) w).2) !! c'
  = clients (cs w) !! c' ∧
  clients (cs (eventBus_Dispatch env (S fuel) "disconnected" (VConn c) w).2) !! c'
  = clients (cs w) !! c'.
Proof.
  intros Hw Hne.
  rewrite (Dispatch_new_connection env fuel c w Hw), (Dispatch_disconnected env fuel c w Hw).
  cbn [snd]. rewrite clients_connected, clients_disconnected.
  by rewrite lookup_insert_ne, lookup_delete_ne.
Qed.

Lemma connection_events_touch_one_entry_witness :
  clients (cs (eventBus_Dispatch sample_env 1 "new-connection" (VConn 9) sample_world).2) !! 3
  = clients (cs sample_world) !! 3 ∧
  clients (cs (eventBus_Dispatch sample_env 1 "disconnected" (VConn 9) sample_world).2) !! 3
  = clients (cs sample_world) !! 3.
Proof.
  apply (connection_events_touch_one_entry sample_env 0 9 3 sample_world sample_world_Wired).
  lia.
Defined.

(** X4.  On the bus as [Start] wires it, connecting and then disconnecting
    a connection that was not in the registry gives back the registry as it
    was, entry for entry. *)
Theorem connect_then_disconnect_restores_registry (env : Env) (fuel : nat) (c : Conn)
    (w : World) :
  Wired w → clients (cs w) !! c = None →
  let r1 := eventBus_Dispatch env (S fuel) "new-connection" (VConn c) w in
  let r2 := eventBus_Dispatch env (S fuel) "disconnected" (VConn c) r1.2 in
  clients (cs r2.2) = clients (cs w).
Proof.
  intros Hw Habs. cbv zeta.
  rewrite (Dispatch_new_connection env fuel c w Hw). cbn [snd].
  rewrite (Dispatch_disconnected env fuel c _ (Wired_connected env c w Hw)). cbn [snd].
  rewrite clients_disconnected, clients_connected.
  by rewrite delete_insert_eq, delete_id.
Qed.

Lemma connect_then_disconnect_restores_registry_witness :
  let r1 := eventBus_Dispatch sample_env 1 "new-connection" (VConn 9) sample_world in
  let r2 := eventBus_Dispatch sample_env 1 "disconnected" (VConn 9) r1.2 in
  clients (cs r2.2) = clients (cs sample_world).
Proof.
  apply (connect_then_disconnect_restores_registry sample_env 0 9 sample_world
           sample_world_Wired).
  vm_compute. reflexivity.
Defined.

(** X5.  On the bus as [Start] wires it, announcing a connection that is
    already a member leaves the registry as it was: there is no second
    entry, the size does not change.  (The notice is printed again.) *)
Theorem announcing_a_member_keeps_registry (env : Env) (fuel : nat) (c : Conn) (w : World) :
  Wired w → clients (cs w) !! c = Some true →
  let r := eventBus_Dispatch env (S fuel) "new-connection" (VConn c) w in
  clients (cs r.2) = clients (cs w) ∧
  size (clients (cs r.2)) = size (clients (cs w)) ∧
  printed (new_obs w r.2) = ["New connection from " +:+ conn_RemoteAddr env c +:+ nl].
Proof.
  intros Hw Hin. cbv zeta.
  rewrite (Dispatch_new_connection env fuel c w Hw). cbn [snd].
  rewrite clients_connected, (insert_id _ _ _ Hin).
  by rewrite (new_obs_app _ _ _ (trace_connected env c w)).
Qed.

Lemma announcing_a_member_keeps_registry_witness :
  let r := eventBus_Dispatch sample_env 1 "new-connection" (VConn 3) sample_world in
  clients (cs r.2) = clients (cs sample_world) ∧
  size (clients (cs r.2)) = size (clients (cs sample_world)) ∧
  printed (new_obs sample_world r.2)
  = ["New connection from " +:+ conn_RemoteAddr sample_env 3 +:+ nl].
Proof.
  apply (announcing_a_member_keeps_registry sample_env 0 3 sample_world
           sample_world_Wired).
  vm_compute. reflexivity.
Defined.

#[local] Instance keeps_all_true_refl : Reflexive keeps_all_true.
Proof. intros w Hm. exact Hm. Qed.

#[local] Instance keeps_all_true_trans : Transitive keeps_all_true.
Proof. intros w1 w2 w3 H12 H23 H1. by apply H23, H12. Qed.

Lemma all_true_insert m c : all_true m → all_true (<[c := true]> m).
Proof.
  intros Hm c' v. destruct (decide (c' = c)) as [->|Hne].
  - rewrite lookup_insert_eq. by intros [= <-].
  - rewrite lookup_insert_ne by done. apply Hm.
Qed.

Lemma all_true_delete m c : all_true m → all_true (delete c m).
Proof.
  intros Hm c' v. destruct (decide (c' = c)) as [->|Hne].
  - by rewrite lookup_delete_eq.
  - rewrite lookup_delete_ne by done. apply Hm.
Qed.

Lemma invoke_keeps_all_true env fuel h event w :
  keeps_all_true w (invoke env fuel h event w).2.
Proof.
  revert h event w. induction fuel as [|fuel IH]; intros h event w; [done|].
  rewrite invoke_S. cbv zeta.
  destruct h, (Data event); cbn [snd]; try (intros Hm; exact Hm).
  - intros Hm. by apply all_true_insert.
  - intros Hm. by apply all_true_delete.
  - trans (emit (ObsCall onMessageReceived event) w); [intros Hm; exact Hm|].
    apply (range_clients_rel keeps_all_true). intros c w'.
    destruct (conn_Write env c (list_byte_of_string s) (trace w')) as [e|]; cbn [snd];
      [|intros Hm; exact Hm].
    trans (emit (ObsWrite c (list_byte_of_string s) (Some e)) w'); [intros Hm; exact Hm|].
    unfold Dispatch. apply (range_handlers_rel keeps_all_true). intros h' w''. apply IH.
Qed.

(** X6.  The registry is kept as a set: if every entry maps to [true]
    before a dispatch, every entry maps to [true] after it, whatever is
    registered on the bus, whatever the event type and payload, and also
    when the dispatch panics. *)
Theorem Dispatch_keeps_registry_a_set (env : Env) (fuel : nat) (ty : string)
    (data : any) (w : World) :
  all_true (clients (cs w)) →
  all_true (clients (cs (eventBus_Dispatch env fuel ty data w).2)).
Proof.
  unfold eventBus_Dispatch, Dispatch.
  apply (range_handlers_rel keeps_all_true). intros h w'. apply invoke_keeps_all_true.
Qed.

Lemma sample_world_all_true : all_true (clients (cs sample_world)).
Proof.
  intros c v Hc.
  assert (clients (cs sample_world) = <[3 := true]> (<[2 := true]> (<[1 := true]> ∅)))
    as Heq by (by vm_compute).
  rewrite Heq in Hc.
  repeat (apply lookup_insert_Some in Hc as [[_ <-]|[_ Hc]]; [done|]).
  by rewrite lookup_empty in Hc.
Qed.

Lemma Dispatch_keeps_registry_a_set_witness :
  all_true (clients (cs (eventBus_Dispatch sample_env 2 "message-received"
                           (VString "hi") sample_world).2)).
Proof.
  exact (Dispatch_keeps_registry_a_set sample_env 2 "message-received" (VString "hi")
           sample_world sample_world_all_true).
Defined.

(** ** Dispatch: panics and termination *)

Lemma range_handlers_app {H W : Type} (hs1 hs2 : list H)
    (body : H → W → Outcome unit * W) w w1 :
  range_handlers hs1 body w = (Returned tt, w1) →
  range_handlers (hs1 ++ hs2) body w = range_handlers hs2 body w1.
Proof.
  revert w. induction hs1 as [|h hs1 IH]; intros w; simpl.
  - by intros [= ->].
  - destruct (body h w) as [[] w']; try done. apply IH.
Qed.

(** X7.  A panic is not recovered by [Dispatch]: when the handlers
    registered before [h] return and [h] panics, the dispatch ends in that
    panic, in the state [h] left; the handlers registered before [h] and
    [h] itself have been called, once each and in order, and those
    registered after [h] have not been called. *)
Theorem panicking_handler_stops_Dispatch {H W : Type}
    (call : H → Event → W → Outcome unit * W) (eb : EventBus.t H)
    (ty : string) (data : any) (w : W) (hs1 hs2 : list H) (h : H) :
  handlers eb !!! ty = hs1 ++ h :: hs2 →
  (∀ h' w', h' ∈ hs1 → (call h' {| Type_ := ty; Data := data |} w').1 = Returned tt) →
  is_panic (call h {| Type_ := ty; Data := data |}
              (after_all call {| Type_ := ty; Data := data |} hs1 w)).1 = true →
  let r := Dispatch (traced call) eb ty data (w, []) in
  is_panic r.1 = true ∧
  r.2.1 = (call h {| Type_ := ty; Data := data |}
             (after_all call {| Type_ := ty; Data := data |} hs1 w)).2 ∧
  r.2.2 = map (λ h, (h, {| Type_ := ty; Data := data |})) (hs1 ++ [h]).
Proof.
  intros Hhs Hret Hpanic. cbv zeta. unfold Dispatch. rewrite Hhs.
  set (ev := {| Type_ := ty; Data := data |}) in *.
  rewrite (range_handlers_app hs1 (h :: hs2) _ _ _
             (range_handlers_traced call ev hs1 w [] Hret)).
  cbn [range_handlers].
  destruct (call h ev (after_all call ev hs1 w)) as [o w1] eqn:E.
  cbn [fst snd] in Hpanic |- *.
  assert (traced call h ev (after_all call ev hs1 w, [] ++ map (λ h0, (h0, ev)) hs1)
          = (o, (w1, map (λ h0, (h0, ev)) hs1 ++ [(h, ev)]))) as ->
    by (unfold traced; cbn [fst snd]; by rewrite E).
  destruct o; try done. cbn [fst snd]. by rewrite map_app.
Qed.

Lemma panicking_handler_stops_Dispatch_witness :
  let r := Dispatch (traced flaky_call) (RegisterAll NewEventBus "tick" [3; 0; 2])
             "tick" VNil ([], []) in
  is_panic r.1 = true ∧
  r.2.1 = [3] ∧
  r.2.2 = [(3, {| Type_ := "tick"; Data := VNil |}); (0, {| Type_ := "tick"; Data := VNil |})].
Proof.
  refine (panicking_handler_stops_Dispatch flaky_call
            (RegisterAll NewEventBus "tick" [3; 0; 2]) "tick" VNil [] [3] [2] 0 _ _ _).
  - reflexivity.
  - intros h' w' ->%list_elem_of_singleton. reflexivity.
  - reflexivity.
Defined.

Lemma range_handlers_settled {H W : Type} (hs : list H)
    (body : H → W → Outcome unit * W) w :
  (∀ h w', settled (body h w').1) → settled (range_handlers hs body w).1.
Proof.
  intros Hbody. revert w. induction hs as [|h hs IH]; intros w; simpl.
  - left. by exists tt.
  - pose proof (Hbody h w) as Hh.
    destruct (body h w) as [[] w']; cbn [fst] in *; try done.
Qed.

Lemma range_clients_settled keys body w :
  (∀ c w', settled (body c w').1) → settled (range_clients keys body w).1.
Proof.
  intros Hbody. revert w. induction keys as [|c keys IH]; intros w; simpl.
  - left. by exists tt.
  - destruct (clients (cs w) !! c); [|done].
    pose proof (Hbody c w) as Hc.
    destruct (body c w) as [[] w']; cbn [fst] in *; try done.
Qed.

(** With a connection as payload no handler calls back into the bus. *)
Lemma invoke_conn_settled env fuel h ty c w :
  settled (invoke env (S fuel) h {| Type_ := ty; Data := VConn c |} w).1.
Proof.
  rewrite invoke_S. cbv zeta. destruct h; cbn [Data fst].
  - left. by exists tt.
  - left. by exists tt.
  - by right.
Qed.

(** X8.  Handlers call back into the bus, but never more than one level
    deep: whatever is registered on the bus for whatever event type, and
    whatever the payload, a dispatch comes to an end (it returns or it
    panics) within a call depth of two. *)
Theorem Dispatch_ends_within_depth_two (env : Env) (fuel : nat) (ty : string)
    (data : any) (w : World) :
  settled (eventBus_Dispatch env (S (S fuel)) ty data w).1.
Proof.
  unfold eventBus_Dispatch, Dispatch. apply range_handlers_settled. intros h w'.
  rewrite invoke_S. cbv zeta. cbn [Data].
  destruct h, data; cbn [fst]; try (by right); try (left; by exists tt).
  apply range_clients_settled. intros c w''. cbv zeta.
  destruct (conn_Write env c (list_byte_of_string s) (trace w'')); cbn [fst];
    [|left; by exists tt].
  unfold Dispatch. apply range_handlers_settled. intros h' w3.
  apply invoke_conn_settled.
Qed.

(** ** The reader, end to end *)

Lemma reader_loop_Returned_removed env fuel iters c buf w :
  Wired w →
  (reader_loop env (S (S fuel)) iters c buf w).1 = Returned tt →
  clients (cs (reader_loop env (S (S fuel)) iters c buf w).2) !! conn c = None ∧
  Wired (reader_loop env (S (S fuel)) iters c buf w).2.
Proof.
  revert buf w. induction iters as [|iters IH]; intros buf w Hw; [done|].
  cbn [reader_loop].
  destruct (conn_Read env (conn c) (length buf) (trace w)) as [data err]. cbv zeta.
  set (w1 := emit (ObsRead (conn c) (length buf) data err) w).
  assert (Wired w1) as Hw1 by done.
  destruct err as [e|].
  - rewrite Client_Dispatch_eq, (Dispatch_disconnected env (S fuel) (conn c) w1 Hw1).
    cbn [fst snd]. intros _. split; [|done].
    rewrite clients_disconnected. apply lookup_delete_eq.
  - destruct (slice_to (stored buf data) (length data)) as [bs|]; [|done].
    rewrite Client_Dispatch_eq, (Dispatch_message_received env fuel _ w1 Hw1).
    apply IH. by apply Wired_broadcast.
Qed.

(** X9.  On the bus as [Start] wires it, when [Client.Start] returns its
    connection is not in the registry, whatever happened while it ran. *)
Theorem Client_Start_returns_after_removal (env : Env) (fuel iters : nat) (c : Client)
    (w : World) :
  Wired w →
  (Client_Start env (S (S fuel)) iters c w).1 = Returned tt →
  clients (cs (Client_Start env (S (S fuel)) iters c w).2) !! conn c = None.
Proof.
  intros Hw. unfold Client_Start.
  rewrite Client_Dispatch_eq, (Dispatch_new_connection env (S fuel) (conn c) w Hw).
  intros Hret. by apply reader_loop_Returned_removed; [apply Wired_connected|].
Qed.

Lemma Client_Start_returns_after_removal_witness :
  (Client_Start sample_env 2 5 (NewClient 3 server_bus) sample_world).1 = Returned tt ∧
  clients (cs (Client_Start sample_env 2 5 (NewClient 3 server_bus) sample_world).2) !! 3 = None.
Proof.
  assert ((Client_Start sample_env 2 5 (NewClient 3 server_bus) sample_world).1 = Returned tt)
    as Hret by (vm_compute; reflexivity).
  split; [exact Hret|].
  exact (Client_Start_returns_after_removal sample_env 0 5 (NewClient 3 server_bus)
           sample_world sample_world_Wired Hret).
Defined.

Lemma reader_loop_verbatim env fuel iters c buf w :
  Wired w →
  ∃ seg, trace (reader_loop env (S (S fuel)) iters c buf w).2 = trace w ++ seg ∧
         Forall (λ x, x.1.2 ∈ successful_reads seg) (writes seg).
Proof.
  revert buf w. induction iters as [|iters IH]; intros buf w Hw.
  - exists []. rewrite app_nil_r. split; [done|constructor].
  - cbn [reader_loop].
    destruct (conn_Read env (conn c) (length buf) (trace w)) as [data err]. cbv zeta.
    set (w1 := emit (ObsRead (conn c) (length buf) data err) w).
    assert (Wired w1) as Hw1 by done.
    destruct err as [e|].
    + rewrite Client_Dispatch_eq, (Dispatch_disconnected env (S fuel) (conn c) w1 Hw1).
      cbn [snd]. eexists. split.
      * rewrite trace_disconnected. unfold w1, emit; simpl trace.
        rewrite <- app_assoc. reflexivity.
      * constructor.
    + unfold slice_to. rewrite length_stored. case_decide as Hle.
      2:{ exists [ObsRead (conn c) (length buf) data None]. split; [done|constructor]. }
      assert (take (length data) (stored buf data) = data) as ->.
      { unfold stored. rewrite take_take, Nat.min_l by done. by rewrite take_app_length. }
      rewrite Client_Dispatch_eq, (Dispatch_message_received env fuel _ w1 Hw1).
      destruct (trace_relayed env (string_of_list_byte data) w1) as (segb & Htb & Hrel).
      set (w3 := relayed env (string_of_list_byte data) w1) in *.
      assert (Wired w3) as Hw3 by (by apply Wired_broadcast).
      destruct (IH (stored buf data) w3 Hw3) as (seg & Ht & Hall).
      exists (([ObsRead (conn c) (length buf) data None; ObsCall onMessageReceived (message_event data)]
               ++ segb) ++ seg).
      split.
      * rewrite Ht, Htb. unfold w1, emit; simpl trace. by rewrite <- !app_assoc.
      * rewrite !writes_app, !successful_reads_app.
        rewrite (relay_obs_no_successful_reads _ _ Hrel), app_nil_r.
        apply Forall_app; split.
        -- apply Forall_app; split; [constructor|].
           eapply Forall_impl; [exact (relay_obs_writes _ _ Hrel)|].
           intros x ->. rewrite list_byte_of_string_of_list_byte.
           apply elem_of_app; left. by left.
        -- eapply Forall_impl; [exact Hall|].
           intros x Hx. apply elem_of_app; by right.
Qed.

(** X10.  On the bus as [Start] wires it, [Client.Start] relays verbatim:
    the bytes of every [Write] made while it runs are exactly the bytes one
    of its successful reads returned (the conversion of the bytes read to a
    string and of the string back to bytes loses nothing), so nothing else
    is ever sent to a connection. *)
Theorem Client_Start_writes_only_what_it_read (env : Env) (fuel iters : nat) (c : Client)
    (w : World) :
  Wired w →
  let seg := new_obs w (Client_Start env (S (S fuel)) iters c w).2 in
  Forall (λ x, x.1.2 ∈ successful_reads seg) (writes seg).
Proof.
  intros Hw. cbv zeta. unfold Client_Start.
  rewrite Client_Dispatch_eq, (Dispatch_new_connection env (S fuel) (conn c) w Hw).
  destruct (reader_loop_verbatim env fuel iters c (make_bytes 1024)
              (connected env (conn c) w) (Wired_connected env (conn c) w Hw))
    as (seg & Ht & Hall).
  rewrite trace_connected, <- app_assoc in Ht.
  rewrite (new_obs_app _ _ _ Ht), writes_app, successful_reads_app.
  exact Hall.
Qed.

Lemma Client_Start_writes_only_what_it_read_witness :
  let seg := new_obs sample_world
               (Client_Start sample_env 2 5 (NewClient 4 server_bus) sample_world).2 in
  Forall (λ x, x.1.2 ∈ successful_reads seg) (writes seg).
Proof.
  exact (Client_Start_writes_only_what_it_read sample_env 0 5 (NewClient 4 server_bus)
           sample_world sample_world_Wired).
Defined.

(** ** Broadcasts, one after the other *)

Lemma Dispatch_message_members env fuel msg w :
  range_ok env → Wired w →
  let r := eventBus_Dispatch env (S (S fuel)) "message-received" (VString msg) w in
  r.1 = Returned tt ∧ Wired r.2 ∧
  (writes (new_obs w r.2)).*1.*1 ≡ₚ (map_to_list (clients (cs w))).*1 ∧
  (∀ c, clients (cs r.2) !! c
        = if decide (c ∈ failed_writes (new_obs w r.2)) then None else clients (cs w) !! c).
Proof.
  intros Hrange Hw. cbv zeta.
  rewrite (Dispatch_message_received env fuel msg w Hw). cbn [fst snd].
  split; [done|]. split; [by apply Wired_broadcast|].
  unfold relayed. cbv zeta.
  set (ev := {| Type_ := "message-received"; Data := VString msg |}).
  set (w0 := emit (ObsCall onMessageReceived ev) w).
  set (b := list_byte_of_string msg).
  set (keys := range_keys env (clients (cs w0)) (trace w0)).
  assert (keys ≡ₚ (map_to_list (clients (cs w))).*1) as Hperm by apply Hrange.
  assert (NoDup keys) as Hnd by (rewrite Hperm; apply NoDup_fst_map_to_list).
  assert (∀ c, c ∈ keys → is_Some (clients (cs w0) !! c)) as Hin.
  { intros c Hc. rewrite Hperm in Hc.
    apply list_elem_of_fmap in Hc as ([c' v] & -> & Hcv).
    apply elem_of_map_to_list in Hcv. by exists v. }
  destruct (broadcast_members env b keys w0 Hnd Hin) as (seg & Ht & Hws & _ & Hcl).
  assert (trace (broadcast env b keys w0) = trace w ++ [ObsCall onMessageReceived ev] ++ seg)
    as Hfull by (rewrite Ht; unfold w0, emit; simpl; by rewrite <- app_assoc).
  rewrite (new_obs_app _ _ _ Hfull), writes_app, failed_writes_app.
  change (writes [ObsCall onMessageReceived ev]) with (@nil (Conn * list byte * option error)).
  change (failed_writes [ObsCall onMessageReceived ev]) with (@nil Conn).
  rewrite !app_nil_l, Hws. split; [done|].
  intros c. rewrite Hcl. apply lookup_foldl_delete.
Qed.

(** X11.  On the bus as [Start] wires it, of two [message-received]
    dispatches in a row the second writes to exactly the members the first
    one did not fail on: a connection whose write failed in the first
    broadcast is not written to again, everybody else is. *)
Theorem second_broadcast_skips_failed_members (env : Env) (fuel : nat) (msg1 msg2 : string)
    (w : World) (c : Conn) :
  range_ok env → Wired w →
  let r1 := eventBus_Dispatch env (S (S fuel)) "message-received" (VString msg1) w in
  let r2 := eventBus_Dispatch env (S (S fuel)) "message-received" (VString msg2) r1.2 in
  c ∈ (writes (new_obs r1.2 r2.2)).*1.*1 ↔
  is_Some (clients (cs w) !! c) ∧ c ∉ failed_writes (new_obs w r1.2).
Proof.
  intros Hrange Hw. cbv zeta.
  destruct (Dispatch_message_members env fuel msg1 w Hrange Hw) as (_ & Hw1 & _ & Hcl1).
  destruct (Dispatch_message_members env fuel msg2 _ Hrange Hw1) as (_ & _ & Hws2 & _).
  rewrite Hws2. rewrite list_elem_of_fmap. split.
  - intros ([c' v] & -> & Hcv). apply elem_of_map_to_list in Hcv.
    cbn [fst] in *. rewrite Hcl1 in Hcv. case_decide; [done|]. split; [by exists v|done].
  - intros ([v Hv] & Hnf). exists (c, v). split; [done|].
    apply elem_of_map_to_list. rewrite Hcl1. by rewrite decide_False.
Qed.

Lemma second_broadcast_skips_failed_members_witness :
  let r1 := eventBus_Dispatch sample_env 2 "message-received" (VString "one") sample_world in
  let r2 := eventBus_Dispatch sample_env 2 "message-received" (VString "two") r1.2 in
  2 ∈ (writes (new_obs r1.2 r2.2)).*1.*1 ↔
  is_Some (clients (cs sample_world) !! 2) ∧ 2 ∉ failed_writes (new_obs sample_world r1.2).
Proof.
  exact (second_broadcast_skips_failed_members sample_env 0 "one" "two" sample_world 2
           sample_env_range_ok sample_world_Wired).
Defined.

(** ** Before [Start] *)

Lemma Dispatch_on_new_server env fuel ty data w :
  cs w = NewChatServer → eventBus_Dispatch env fuel ty data w = (Returned tt, w).
Proof. intros Hcs. unfold eventBus_Dispatch, Dispatch. by rewrite Hcs. Qed.

Lemma reader_loop_on_new_server env fuel iters c buf w :
  cs w = NewChatServer →
  ∃ seg, trace (reader_loop env fuel iters c buf w).2 = trace w ++ seg ∧
         cs (reader_loop env fuel iters c buf w).2 = NewChatServer ∧
         writes seg = [] ∧ printed seg = [] ∧ ∀ h, calls h seg = [].
Proof.
  revert buf w. induction iters as [|iters IH]; intros buf w Hcs.
  - exists []. by rewrite app_nil_r.
  - cbn [reader_loop].
    destruct (conn_Read env (conn c) (length buf) (trace w)) as [data err]. cbv zeta.
    set (w1 := emit (ObsRead (conn c) (length buf) data err) w).
    assert (cs w1 = NewChatServer) as Hcs1 by done.
    destruct err as [e|].
    + rewrite Client_Dispatch_eq, (Dispatch_on_new_server env fuel _ _ w1 Hcs1).
      by exists [ObsRead (conn c) (length buf) data (Some e)].
    + destruct (slice_to (stored buf data) (length data)) as [bs|].
      2:{ by exists [ObsRead (conn c) (length buf) data None]. }
      rewrite Client_Dispatch_eq, (Dispatch_on_new_server env fuel _ _ w1 Hcs1).
      destruct (IH (stored buf data) w1 Hcs1) as (seg & Ht & Hcs' & Hw & Hp & Hc).
      exists ([ObsRead (conn c) (length buf) data None] ++ seg).
      rewrite writes_app, printed_app, Hw, Hp. split_and!; try done.
      rewrite Ht. unfold w1, emit; simpl trace. by rewrite <- app_assoc.
Qed.

(** X12.  A server made by [NewChatServer] has an empty registry and an
    empty handler table, and until [Start] has registered the handlers
    every event is lost: [Client.Start] run on such a server calls no
    handler, prints nothing, writes to nobody, and leaves the server as it
    was, its own connection not registered. *)
Theorem events_before_Start_are_lost (env : Env) (fuel iters : nat) (c : Client)
    (w : World) (h : Method) :
  cs w = NewChatServer →
  let r := Client_Start env fuel iters c w in
  cs r.2 = NewChatServer ∧ clients (cs r.2) !! conn c = None ∧
  calls h (new_obs w r.2) = [] ∧ writes (new_obs w r.2) = [] ∧ printed (new_obs w r.2) = [].
Proof.
  intros Hcs. cbv zeta. unfold Client_Start.
  rewrite Client_Dispatch_eq, (Dispatch_on_new_server env fuel _ _ w Hcs).
  destruct (reader_loop_on_new_server env fuel iters c (make_bytes 1024) w Hcs)
    as (seg & Ht & Hcs' & Hw & Hp & Hc).
  rewrite (new_obs_app _ _ _ Ht), Hcs'. by rewrite Hc.
Qed.

Lemma events_before_Start_are_lost_witness :
  let r := Client_Start sample_env 2 5 (NewClient 4 server_bus) init_world in
  cs r.2 = NewChatServer ∧ clients (cs r.2) !! 4 = None ∧
  calls onMessageReceived (new_obs init_world r.2) = [] ∧
  writes (new_obs init_world r.2) = [] ∧ printed (new_obs init_world r.2) = [].
Proof.
  exact (events_before_Start_are_lost sample_env 2 5 (NewClient 4 server_bus) init_world
           onMessageReceived eq_refl).
Defined.

(** ** The server as [main] runs it *)

Lemma lookup_foldl_insert_true (m : gmap Conn bool) (l : list Conn) (k : Conn) :
  is_Some (foldl (λ m c, <[c := true]> m) m l !! k) ↔ k ∈ l ∨ is_Some (m !! k).
Proof.
  revert m. induction l as [|c l IH]; intros m; cbn [foldl].
  - split; [by right|]. by intros [?%elem_of_nil|?].
  - rewrite IH, elem_of_cons. destruct (decide (k = c)) as [->|Hne].
    + rewrite lookup_insert_eq. split; [by intros _; left; left|]. intros _. right. by eexists.
    + rewrite lookup_insert_ne by done. tauto.
Qed.

(** X13.  When binding succeeds, the server [main] runs keeps every
    connection it ever accepted: after any number of iterations the members
    of the registry are exactly the connections [Accept] has returned, the
    [disconnected] handler has never been called, and nothing has been
    written to any connection. *)
Theorem main_keeps_every_accepted_connection (env : Env) (fuel iters : nat) (c : Conn) :
  net_Listen env ":8000" [] = None →
  let r := main env (S fuel) iters in
  (is_Some (clients (cs r.2) !! c) ↔ c ∈ accepted (trace r.2)) ∧
  calls onDisconnected (trace r.2) = [] ∧
  writes (trace r.2) = [].
Proof.
  intros Hl. cbv zeta. unfold main. cbv zeta. fold init_world.
  rewrite (Start_listening env (S fuel) iters ":8000" init_world Hl).
  destruct (accept_loop_trace env fuel iters _ (Wired_listening ":8000"))
    as (seg & Ht & Ho & _ & _ & Hd & Hwr & _ & Hcl).
  destruct (accept_loop env (S fuel) iters (listening ":8000" init_world)) as [o w'].
  cbn [fst snd] in Ht, Ho, Hcl. subst o. cbn [fst snd].
  rewrite Ht, trace_listening, Hcl.
  rewrite !accepted_app, !calls_app, !writes_app, Hd, Hwr.
  split_and!; try done.
  rewrite lookup_foldl_insert_true. cbn. rewrite lookup_empty.
  split; [intros [?|[? ?]]; done|by left].
Qed.

Lemma main_keeps_every_accepted_connection_witness :
  let r := main sample_env 2 5 in
  (is_Some (clients (cs r.2) !! 2) ↔ 2 ∈ accepted (trace r.2)) ∧
  calls onDisconnected (trace r.2) = [] ∧
  writes (trace r.2) = [].
Proof.
  exact (main_keeps_every_accepted_connection sample_env 1 5 2 eq_refl).
Defined.

(** ** Event types are independent, [disconnected] apart *)

Lemma range_handlers_sim {H W : Type} (R : W → W → Prop) (hs : list H)
    (body body' : H → W → Outcome unit * W) w w' :
  R w w' →
  (∀ h v v', R v v' → (body h v).1 = (body' h v').1 ∧ R (body h v).2 (body' h v').2) →
  (range_handlers hs body w).1 = (range_handlers hs body' w').1 ∧
  R (range_handlers hs body w).2 (range_handlers hs body' w').2.
Proof.
  intros HR Hbody. revert w w' HR. induction hs as [|h hs IH]; intros w w' HR; [done|].
  cbn [range_handlers]. destruct (Hbody h w w' HR) as [Ho HR'].
  destruct (body h w) as [o v], (body' h w') as [o' v']. cbn [fst snd] in Ho, HR'.
  subst o'. destruct o; try done. by apply IH.
Qed.

Lemma range_clients_sim (R : World → World → Prop) (keys : list Conn)
    (body body' : Conn → World → Outcome unit * World) w w' :
  (∀ v v', R v v' → clients (cs v) = clients (cs v')) →
  R w w' →
  (∀ c v v', R v v' → (body c v).1 = (body' c v').1 ∧ R (body c v).2 (body' c v').2) →
  (range_clients keys body w).1 = (range_clients keys body' w').1 ∧
  R (range_clients keys body w).2 (range_clients keys body' w').2.
Proof.
  intros Hcl HR Hbody. revert w w' HR.
  induction keys as [|c keys IH]; intros w w' HR; [done|].
  cbn [range_clients]. rewrite <- (Hcl w w' HR).
  destruct (clients (cs w) !! c); [|by apply IH].
  destruct (Hbody c w w' HR) as [Ho HR'].
  destruct (body c w) as [o v], (body' c w') as [o' v']. cbn [fst snd] in Ho, HR'.
  subst o'. destruct o; try done. by apply IH.
Qed.

Lemma bus_sim_emit eb eb' o w w' : bus_sim eb eb' w w' → bus_sim eb eb' (emit o w) (emit o w').
Proof. intros (Hc & Ht & Hb & Hb'). unfold bus_sim, emit; simpl. by rewrite Ht. Qed.

Lemma bus_sim_set_clients eb eb' m w w' :
  bus_sim eb eb' w w' → bus_sim eb eb' (set_clients m w) (set_clients m w').
Proof. by intros (Hc & Ht & Hb & Hb'). Qed.

(** Two runs that differ in the handler table only, and agree on the
    handlers of [disconnected], do the same in every handler. *)
Lemma invoke_sim env eb eb' fuel h event w w' :
  handlers eb !!! "disconnected" = handlers eb' !!! "disconnected" →
  bus_sim eb eb' w w' →
  (invoke env fuel h event w).1 = (invoke env fuel h event w').1 ∧
  bus_sim eb eb' (invoke env fuel h event w).2 (invoke env fuel h event w').2.
Proof.
  intros Hd. revert h event w w'.
  induction fuel as [|fuel IH]; intros h event w w' Hsim; [done|].
  rewrite !invoke_S. cbv zeta.
  pose proof (bus_sim_emit eb eb' (ObsCall h event) w w' Hsim) as Hsim0.
  set (w0 := emit (ObsCall h event) w) in *.
  set (w0' := emit (ObsCall h event) w') in *.
  clearbody w0 w0'. pose proof Hsim0 as (Hc0 & Ht0 & _ & _).
  destruct h, (Data event); cbn [fst snd]; try done.
  - split; [done|]. rewrite Hc0. by apply bus_sim_emit, bus_sim_set_clients.
  - split; [done|]. rewrite Hc0. by apply bus_sim_emit, bus_sim_set_clients.
  - rewrite Hc0, Ht0.
    apply (range_clients_sim (bus_sim eb eb')); [by intros v v' (? & _)|done|].
    intros c v v' Hv. pose proof Hv as (_ & Htv & _ & _). rewrite Htv.
    set (b := list_byte_of_string s).
    pose proof (bus_sim_emit eb eb' (ObsWrite c b (conn_Write env c b (trace v'))) v v' Hv)
      as Hv1.
    destruct (conn_Write env c b (trace v')); [|done].
    pose proof Hv1 as (_ & _ & Hb & Hb').
    unfold Dispatch. rewrite Hb, Hb', Hd.
    apply (range_handlers_sim (bus_sim eb eb')); [done|].
    intros h' u u' Hu. by apply IH.
Qed.

(** X14.  On the server, registering a handler for an event type other
    than [disconnected] does not change what a dispatch of any other event
    type does: same outcome, same history, same registry.  ([disconnected]
    is excluded because the broadcast handler dispatches it: a handler
    added for it would run inside a [message-received] dispatch.) *)
Theorem Register_elsewhere_keeps_server_dispatch (env : Env) (fuel : nat)
    (ty ty' : string) (h : Method) (data : any) (w : World) :
  ty' ≠ ty → ty' ≠ "disconnected" →
  let w' := set_eventBus (Register (eventBus (cs w)) ty' h) w in
  let r := eventBus_Dispatch env fuel ty data w in
  let r' := eventBus_Dispatch env fuel ty data w' in
  r'.1 = r.1 ∧ trace r'.2 = trace r.2 ∧ clients (cs r'.2) = clients (cs r.2) ∧
  eventBus (cs r'.2) = Register (eventBus (cs w)) ty' h.
Proof.
  intros Hty Hd. cbv zeta. unfold eventBus_Dispatch, Dispatch.
  cbn [set_eventBus cs eventBus].
  rewrite (Register_lookup_total_ne _ ty' ty h) by done.
  destruct (range_handlers_sim
              (bus_sim (eventBus (cs w)) (Register (eventBus (cs w)) ty' h))
              (handlers (eventBus (cs w)) !!! ty)
              (λ handler, invoke env fuel handler {| Type_ := ty; Data := data |})
              (λ handler, invoke env fuel handler {| Type_ := ty; Data := data |})
              w (set_eventBus (Register (eventBus (cs w)) ty' h) w))
    as (Ho & Hc & Ht & _ & Hb); [done| |by rewrite Ho, Ht, Hc, Hb].
  intros h0 v v' Hv. apply invoke_sim; [|done].
  symmetry. by apply Register_lookup_total_ne.
Qed.

Lemma Register_elsewhere_keeps_server_dispatch_witness :
  let w' := set_eventBus (Register (eventBus (cs sample_world)) "new-connection"
                            onDisconnected) sample_world in
  let r := eventBus_Dispatch sample_env 2 "message-received" (VString "hi") sample_world in
  let r' := eventBus_Dispatch sample_env 2 "message-received" (VString "hi") w' in
  r'.1 = r.1 ∧ trace r'.2 = trace r.2 ∧ clients (cs r'.2) = clients (cs r.2) ∧
  eventBus (cs r'.2) = Register (eventBus (cs sample_world)) "new-connection" onDisconnected.
Proof.
  apply (Register_elsewhere_keeps_server_dispatch sample_env 2 "message-received"
           "new-connection" onDisconnected (VString "hi") sample_world); discriminate.
Defined.

(** The exception is real: with [onNewConnection] also registered for
    [disconnected], a broadcast that fails on connection 2 puts it back
    into the registry. *)
Example Register_for_disconnected_changes_broadcast :
  let w' := set_eventBus (Register (eventBus (cs sample_world)) "disconnected"
                            onNewConnection) sample_world in
  clients (cs (eventBus_Dispatch sample_env 2 "message-received" (VString "hi")
                 sample_world).2) !! 2 = None ∧
  clients (cs (eventBus_Dispatch sample_env 2 "message-received" (VString "hi") w').2) !! 2
  = Some true.
Proof. by vm_compute. Qed.
